(** * The live-update client: [WebSocketService]

    A shallow embedding of the class [WebSocketService] of
    [frontend/src/store/index.ts] (third document of that file) together
    with the part of the browser it talks to: the [WebSocket] objects it
    constructs, the timers it arms with [setTimeout] and [setInterval],
    the console, and the Redux store it reads the token from and
    dispatches actions to.

    The client is single threaded and event driven.  A run is a sequence
    of tasks of the event loop: a call of one of the public methods, an
    event of a transport, or the firing of a timer.  Every method is a
    computation in a small monad of state, exceptions and output. *)

From stdpp Require Import base option list gmap strings.
From Stdlib Require Import ZArith Lia.

Set Warnings "-register-all".

Open Scope string_scope.
Open Scope Z_scope.
Open Scope list_scope.

(** ** Values on the wire *)

(** What [JSON.parse] yields and [JSON.stringify] takes.  Number literals
    are kept as text: the client never computes with them.  The members
    of an object are kept in the order of the text. *)
Inductive JValue : Type :=
  | JNull
  | JBool (b : bool)
  | JNum (literal : string)
  | JStr (s : string)
  | JArr (items : list JValue)
  | JObj (members : list (string * JValue)).

(** The exceptions the modelled calls can raise. *)
Inductive Exn : Type :=
  | SyntaxError        (* JSON.parse on a text that is not JSON;
                          new WebSocket on a URL it rejects *)
  | TypeError          (* property access on null; a call of a value that
                          is no function; JSON.stringify on a cyclic
                          object or a BigInt *)
  | InvalidStateError. (* WebSocket.send while CONNECTING *)

(** An own property of a parsed object: for a repeated key [JSON.parse]
    keeps the last occurrence. *)
Fixpoint own_property (key : string) (members : list (string * JValue))
  : option JValue :=
  match members with
  | [] => None
  | (k, v) :: rest =>
      match own_property key rest with
      | Some v' => Some v'
      | None => if String.eqb k key then Some v else None
      end
  end.

(** [message.type] and [message.data]: [None] is [undefined].  Reading a
    property of [null] raises; strings, numbers, booleans and arrays have
    no property of these two names. *)
Definition member_access (v : JValue) (key : string) : Exn + option JValue :=
  match v with
  | JNull => inl TypeError
  | JObj members => inr (own_property key members)
  | _ => inr None
  end.

(** JavaScript truthiness of a [string | null]: [null] and the empty
    string are falsy. *)
Definition truthy (s : option string) : bool :=
  match s with
  | Some s => negb (String.eqb s "")
  | None => false
  end.

(** A [string | null] inside a template literal. *)
Definition template (s : option string) : string :=
  match s with
  | Some s => s
  | None => "null"
  end.

(** ** The browser side *)

Inductive ReadyState : Type := CONNECTING | OPEN | CLOSING | CLOSED.

Definition ReadyState_eqb (a b : ReadyState) : bool :=
  match a, b with
  | CONNECTING, CONNECTING | OPEN, OPEN | CLOSING, CLOSING | CLOSED, CLOSED => true
  | _, _ => false
  end.

(** The two functions [connect] assigns to [onopen]: the bound
    [handleOpen], and the arrow function that sends the token. *)
Inductive OpenHandler : Type :=
  | BoundHandleOpen
  | SendAuthorization (token : string).

(** A transport object.  [onmessage], [onclose] and [onerror] are
    assigned once, in [connect], to [handleMessage], [handleClose] and
    [handleError] and never changed, so the event loop below calls these
    three directly; [onopen] is assigned up to twice and is kept. *)
Record WebSocket : Type := mkWebSocket {
  url : string;
  readyState : ReadyState;
  onopen : option OpenHandler;
}.

(** The two functions handed to the timers: the body of the
    [setInterval] of [handleOpen] and the body of the [setTimeout] of
    [attemptReconnect].  Both close over [this] only. *)
Inductive TimerCallback : Type := PingCallback | ReconnectCallback.

Inductive TimerKind : Type := Interval | Timeout.

Record Timer : Type := mkTimer {
  kind : TimerKind;
  callback : TimerCallback;
  delay : Z;
}.

(** ** The client *)

(** The fields of the class.  A socket is named by its position in the
    table of sockets, a timer by its id.  The two counters and the limit
    are JavaScript numbers that only ever hold integers (0, 1, 2, ... and
    1000, 2000, 4000, ...), which doubles represent exactly; they are
    integers here. *)
Record WebSocketService : Type := mkService {
  socket : option nat;
  reconnectAttempts : Z;
  maxReconnectAttempts : Z;
  reconnectTimeout : Z;
  pingInterval : option nat;
  userId : option string;
}.

(** The whole state: the client [this], every transport constructed so
    far, the armed timers, the next timer id, and what the client reads
    from its surroundings: [store.getState().auth.token] and
    [process.env.REACT_APP_WS_URL]. *)
Record World : Type := mkWorld {
  this : WebSocketService;
  sockets : list WebSocket;
  timers : gmap nat Timer;
  nextTimer : nat;
  token : option string;
  REACT_APP_WS_URL : string;
}.

(** Field initialisers of the class; timer ids are positive. *)
Definition new_WebSocketService : WebSocketService :=
  {| socket := None;
     reconnectAttempts := 0;
     maxReconnectAttempts := 5;
     reconnectTimeout := 1000;
     pingInterval := None;
     userId := None |}.

Definition init (tok : option string) (base : string) : World :=
  {| this := new_WebSocketService;
     sockets := [];
     timers := ∅;
     nextTimer := 1%nat;
     token := tok;
     REACT_APP_WS_URL := base |}.

(** ** What a task does to the outside *)

(** The arguments of a console call.  A template literal is kept as the
    list of its pieces; the [Event] object [handleError] passes along is
    left out. *)

Inductive LogArg : Type :=
  | LStr (s : string)
  | LNum (n : Z)
  | LVal (v : option JValue)
  | LExn (e : Exn).

Inductive Effect : Type :=
  | ConsoleLog (args : list LogArg)
  | ConsoleError (args : list LogArg)
  | StoreDispatch (type : string) (payload : option JValue)
  | TransportSend (sid : nat) (frame : JValue)
  | TransportClose (sid : nat) (code : Z) (reason : string)
  | UncaughtException (e : Exn).

(** ** The monad of the methods *)

Inductive Completion (A : Type) : Type :=
  | Normal (a : A)
  | Thrown (e : Exn).
Arguments Normal {A} a.
Arguments Thrown {A} e.

Definition M (A : Type) : Type := World → Completion A * World * list Effect.

#[global] Instance M_ret : MRet M := λ A a w, (Normal a, w, []).

#[global] Instance M_bind : MBind M := λ A B f m w,
  match m w with
  | (Normal a, w1, out1) =>
      match f a w1 with
      | (r, w2, out2) => (r, w2, out1 ++ out2)
      end
  | (Thrown e, w1, out1) => (Thrown e, w1, out1)
  end.

Definition throw {A : Type} (e : Exn) : M A := λ w, (Thrown e, w, []).

(** [try { body } catch (error) { handler }] *)
Definition try_catch {A : Type} (body : M A) (handler : Exn → M A) : M A := λ w,
  match body w with
  | (Thrown e, w1, out1) =>
      match handler e w1 with
      | (r, w2, out2) => (r, w2, out1 ++ out2)
      end
  | r => r
  end.

Definition emit (e : Effect) : M () := λ w, (Normal (), w, [e]).
Definition get_this : M WebSocketService := λ w, (Normal (this w), w, []).
Definition get_world : M World := λ w, (Normal w, w, []).

Definition lift {A : Type} (r : Exn + A) : M A :=
  match r with
  | inl e => throw e
  | inr a => mret a
  end.

(** Updates of one component of the world. *)
Definition with_this (s : WebSocketService) (w : World) : World :=
  {| this := s; sockets := sockets w; timers := timers w;
     nextTimer := nextTimer w; token := token w;
     REACT_APP_WS_URL := REACT_APP_WS_URL w |}.

Definition with_sockets (l : list WebSocket) (w : World) : World :=
  {| this := this w; sockets := l; timers := timers w;
     nextTimer := nextTimer w; token := token w;
     REACT_APP_WS_URL := REACT_APP_WS_URL w |}.

Definition with_timers (t : gmap nat Timer) (next : nat) (w : World) : World :=
  {| this := this w; sockets := sockets w; timers := t;
     nextTimer := next; token := token w;
     REACT_APP_WS_URL := REACT_APP_WS_URL w |}.

Definition with_token (tok : option string) (w : World) : World :=
  {| this := this w; sockets := sockets w; timers := timers w;
     nextTimer := nextTimer w; token := tok;
     REACT_APP_WS_URL := REACT_APP_WS_URL w |}.

Definition modify (f : World → World) : M () := λ w, (Normal (), f w, []).

(** Assignments to the fields of [this]. *)
Definition set_this (s : WebSocketService) : M () := modify (with_this s).

Definition assign_socket (v : option nat) : M () :=
  s ← get_this;
  set_this {| socket := v; reconnectAttempts := reconnectAttempts s;
              maxReconnectAttempts := maxReconnectAttempts s;
              reconnectTimeout := reconnectTimeout s;
              pingInterval := pingInterval s; userId := userId s |}.

Definition assign_reconnectAttempts (v : Z) : M () :=
  s ← get_this;
  set_this {| socket := socket s; reconnectAttempts := v;
              maxReconnectAttempts := maxReconnectAttempts s;
              reconnectTimeout := reconnectTimeout s;
              pingInterval := pingInterval s; userId := userId s |}.

Definition assign_reconnectTimeout (v : Z) : M () :=
  s ← get_this;
  set_this {| socket := socket s; reconnectAttempts := reconnectAttempts s;
              maxReconnectAttempts := maxReconnectAttempts s;
              reconnectTimeout := v;
              pingInterval := pingInterval s; userId := userId s |}.

Definition assign_pingInterval (v : option nat) : M () :=
  s ← get_this;
  set_this {| socket := socket s; reconnectAttempts := reconnectAttempts s;
              maxReconnectAttempts := maxReconnectAttempts s;
              reconnectTimeout := reconnectTimeout s;
              pingInterval := v; userId := userId s |}.

Definition assign_userId (v : option string) : M () :=
  s ← get_this;
  set_this {| socket := socket s; reconnectAttempts := reconnectAttempts s;
              maxReconnectAttempts := maxReconnectAttempts s;
              reconnectTimeout := reconnectTimeout s;
              pingInterval := pingInterval s; userId := v |}.

(** ** Browser primitives *)

Definition set_sockets (l : list WebSocket) : M () := modify (with_sockets l).

Definition set_timers (t : gmap nat Timer) (next : nat) : M () :=
  modify (with_timers t next).

(** [new WebSocket(url)]: a fresh transport, CONNECTING, no handler yet;
    on a URL the constructor rejects (one that does not parse, or has a
    fragment) a [SyntaxError] and no transport.  [accepted] is the
    verdict of the constructor on the URL: it comes with the call, as the
    code comes with a [close] event. *)
Definition new_WebSocket (accepted : bool) (u : string) : M nat :=
  if accepted then
    w ← get_world;
    set_sockets (sockets w ++ [ {| url := u; readyState := CONNECTING; onopen := None |} ]);;
    mret (length (sockets w))
  else throw SyntaxError.

Definition assign_onopen (sid : nat) (h : OpenHandler) : M () :=
  w ← get_world;
  match sockets w !! sid with
  | Some ws =>
      set_sockets (<[sid := {| url := url ws; readyState := readyState ws;
                               onopen := Some h |}]> (sockets w))
  | None => mret ()
  end.

Definition set_readyState (sid : nat) (st : ReadyState) : M () :=
  w ← get_world;
  match sockets w !! sid with
  | Some ws =>
      set_sockets (<[sid := {| url := url ws; readyState := st;
                               onopen := onopen ws |}]> (sockets w))
  | None => mret ()
  end.

(** [this.socket?.readyState === WebSocket.OPEN] *)
Definition socket_is_open (w : World) : bool :=
  match socket (this w) with
  | Some sid =>
      match sockets w !! sid with
      | Some ws => ReadyState_eqb (readyState ws) OPEN
      | None => false
      end
  | None => false
  end.

(** [ws.send(text)]: raises while CONNECTING, writes while OPEN, and
    discards the text without raising once CLOSING or CLOSED. *)
Definition WebSocket_send (sid : nat) (frame : JValue) : M () :=
  w ← get_world;
  match readyState <$> sockets w !! sid with
  | Some CONNECTING => throw InvalidStateError
  | Some OPEN => emit (TransportSend sid frame)
  | _ => mret ()
  end.

(** [ws.close(code, reason)]: starts the closing handshake of a
    transport that is CONNECTING or OPEN; nothing once CLOSING or CLOSED. *)
Definition WebSocket_close (sid : nat) (code : Z) (reason : string) : M () :=
  w ← get_world;
  match readyState <$> sockets w !! sid with
  | Some CONNECTING | Some OPEN =>
      set_readyState sid CLOSING;;
      emit (TransportClose sid code reason)
  | _ => mret ()
  end.

Definition setInterval (cb : TimerCallback) (ms : Z) : M nat :=
  w ← get_world;
  set_timers (<[nextTimer w := {| kind := Interval; callback := cb; delay := ms |}]> (timers w))
             (S (nextTimer w));;
  mret (nextTimer w).

Definition setTimeout (cb : TimerCallback) (ms : Z) : M nat :=
  w ← get_world;
  set_timers (<[nextTimer w := {| kind := Timeout; callback := cb; delay := ms |}]> (timers w))
             (S (nextTimer w));;
  mret (nextTimer w).

(** [clearInterval(id)]; timeouts and intervals share one pool of ids. *)
Definition clearInterval (tid : nat) : M () :=
  w ← get_world;
  set_timers (delete tid (timers w)) (nextTimer w).

(** ** The methods of [WebSocketService] *)

Definition ping_frame : JValue := JObj [("type", JStr "ping")].

Definition authorization_frame (tok : string) : JValue :=
  JObj [("authorization", JStr ("Bearer " ++ tok)%string)].

(** What [send(data: any)] can be given: a value [JSON.stringify] turns
    into the text of a JSON value, or a value on which it raises (a
    [TypeError] on a cyclic object or a BigInt, or what a [toJSON] method
    throws).  Values [JSON.stringify] turns into [undefined] ([undefined]
    itself, a function, a symbol) are left out. *)
Inductive Data : Type :=
  | Json (v : JValue)
  | Unserializable (e : Exn).

(** [JSON.stringify(data)]; a frame is kept as the JSON value its text
    denotes. *)
Definition JSON_stringify (data : Data) : Exn + JValue :=
  match data with
  | Json v => inr v
  | Unserializable e => inl e
  end.

(** [send(data)]: [JSON.stringify(data)] is the argument of
    [this.socket.send], evaluated once the guard on the ready state has
    passed. *)
Definition send_any (data : Data) : M () :=
  w ← get_world;
  if socket_is_open w then
    match socket (this w) with
    | Some sid =>
        frame ← lift (JSON_stringify data);
        WebSocket_send sid frame
    | None => mret ()
    end
  else
    emit (ConsoleError [LStr "WebSocket is not connected"]).

(** [send] on a JSON value, as every call inside the client is. *)
Definition send (data : JValue) : M () := send_any (Json data).

(** [connect(userId)], with the verdict of the constructor on the URL.
    The method is typed for a string; the reconnect callback passes
    [this.userId!], whose [!] is erased, hence the option.
    [this.userId] is assigned before the constructor can raise, and
    [this.socket] only after it has returned. *)
Definition connect_checked (accepted : bool) (userId : option string) : M () :=
  w ← get_world;
  if socket_is_open w then mret ()
  else
    assign_userId userId;;
    let tok := token w in
    let wsUrl := (REACT_APP_WS_URL w ++ "/ws/" ++ template userId)%string in
    sid ← new_WebSocket accepted wsUrl;
    assign_socket (Some sid);;
    assign_onopen sid BoundHandleOpen;;
    (* Add token to headers *)
    if truthy tok then assign_onopen sid (SendAuthorization (template tok))
    else mret ().

(** [connect(userId)] on a URL [new WebSocket] accepts, as in every task
    of the event loop below. *)
Definition connect (userId : option string) : M () :=
  connect_checked true userId.

(** The arrow function [connect] assigns to [onopen] when there is a
    token; it sends on whatever [this.socket] is when it runs. *)
Definition send_authorization (tok : string) : M () :=
  s ← get_this;
  match socket s with
  | Some sid => WebSocket_send sid (authorization_frame tok)
  | None => mret ()
  end.

(** [handleOpen()] *)
Definition handleOpen : M () :=
  emit (ConsoleLog [LStr "WebSocket connected"]);;
  assign_reconnectAttempts 0;;
  assign_reconnectTimeout 1000;;
  (* Start ping interval *)
  tid ← setInterval PingCallback 30000;
  assign_pingInterval (Some tid).

(** [JSON.parse(event.data)]: the event carries what the parser makes
    of its data, [None] when the parser raises. *)
Definition JSON_parse (data : option JValue) : Exn + JValue :=
  match data with
  | Some v => inr v
  | None => inl SyntaxError
  end.

(** [handleMessage(event)].  The [switch] compares with [===], so only
    a string can match a case; the case [pong] has an empty body.
    [store.dispatch] is an effect here and raises nothing. *)
Definition handleMessage (data : option JValue) : M () :=
  try_catch
    (message ← lift (JSON_parse data);
     ty ← lift (member_access message "type");
     match ty with
     | Some (JStr t) =>
         if String.eqb t "pong" then mret ()
         else if String.eqb t "chat_message" then
           payload ← lift (member_access message "data");
           emit (StoreDispatch "chat/messageReceived" payload)
         else if String.eqb t "goal_update" then
           payload ← lift (member_access message "data");
           emit (StoreDispatch "goals/goalUpdated" payload)
         else if String.eqb t "transaction_update" then
           payload ← lift (member_access message "data");
           emit (StoreDispatch "finance/transactionUpdated" payload)
         else if String.eqb t "post_update" then
           payload ← lift (member_access message "data");
           emit (StoreDispatch "community/postUpdated" payload)
         else emit (ConsoleLog [LStr "Unhandled message type:"; LVal ty])
     | _ => emit (ConsoleLog [LStr "Unhandled message type:"; LVal ty])
     end)
    (λ error, emit (ConsoleError [LStr "Error parsing WebSocket message:"; LExn error])).

(** [attemptReconnect()] *)
Definition attemptReconnect : M () :=
  s ← get_this;
  if (reconnectAttempts s <? maxReconnectAttempts s) && truthy (userId s) then
    _ ← setTimeout ReconnectCallback (reconnectTimeout s);
    mret ()
  else
    emit (ConsoleError [LStr "Max reconnection attempts reached"]);;
    (* Dispatch connection error to Redux store *)
    emit (StoreDispatch "app/websocketError"
            (Some (JStr "Unable to establish WebSocket connection"))).

(** The arrow function of the [setTimeout] of [attemptReconnect]. *)
Definition reconnect_callback : M () :=
  s ← get_this;
  emit (ConsoleLog [LStr "Attempting to reconnect... (";
                    LNum (reconnectAttempts s + 1); LStr "/";
                    LNum (maxReconnectAttempts s); LStr ")"]);;
  connect (userId s);;
  s1 ← get_this;
  assign_reconnectAttempts (reconnectAttempts s1 + 1);;
  s2 ← get_this;
  assign_reconnectTimeout (reconnectTimeout s2 * 2). (* Exponential backoff *)

(** The arrow function of the [setInterval] of [handleOpen]. *)
Definition ping_callback : M () := send ping_frame.

(** [handleClose(event)] *)
Definition handleClose (code : Z) (reason : string) : M () :=
  emit (ConsoleLog [LStr "WebSocket disconnected:"; LNum code; LStr reason]);;
  (* Clear ping interval *)
  s ← get_this;
  match pingInterval s with
  | Some tid => clearInterval tid;; assign_pingInterval None
  | None => mret ()
  end;;
  (* Attempt to reconnect if not closed intentionally *)
  if negb (code =? 1000) then attemptReconnect else mret ().

(** [handleError(error)] *)
Definition handleError : M () :=
  emit (ConsoleError [LStr "WebSocket error:"]).

(** [disconnect()] *)
Definition disconnect : M () :=
  s ← get_this;
  match socket s with
  | Some sid =>
      WebSocket_close sid 1000 "User disconnected";;
      assign_socket None
  | None => mret ()
  end;;
  s1 ← get_this;
  match pingInterval s1 with
  | Some tid => clearInterval tid;; assign_pingInterval None
  | None => mret ()
  end.

(** ** The event loop *)

(** The tasks the client can be given: calls of its three public
    methods, a change of the token in the store, events of a transport,
    and a timer that fires. *)
Inductive Event : Type :=
  | CallConnect (userId : string)
  | CallSend (data : JValue)
  | CallDisconnect
  | StoreToken (tok : option string)
  | WsOpen (sid : nat)
  | WsMessage (sid : nat) (data : option JValue)
  | WsError (sid : nat)
  | WsClose (sid : nat) (code : Z) (reason : string)
  | TimerFire (tid : nat).

Definition set_token (tok : option string) : M () := modify (with_token tok).

(** A transport fires [open] once, out of CONNECTING; delivers messages
    only while OPEN; fires [close] once, which makes it CLOSED.  When a
    connection fails the browser fires [error] and then [close] in the
    same task; the ready state is moved by the [close] of the pair, which
    no handler can tell apart since [handleError] reads no state. *)
Definition task (ev : Event) : M () :=
  match ev with
  | CallConnect u => connect (Some u)
  | CallSend d => send d
  | CallDisconnect => disconnect
  | StoreToken tok => set_token tok
  | WsOpen sid =>
      w ← get_world;
      match sockets w !! sid with
      | Some ws =>
          if ReadyState_eqb (readyState ws) CONNECTING then
            set_readyState sid OPEN;;
            match onopen ws with
            | Some BoundHandleOpen => handleOpen
            | Some (SendAuthorization tok) => send_authorization tok
            | None => mret ()
            end
          else mret ()
      | None => mret ()
      end
  | WsMessage sid data =>
      w ← get_world;
      match readyState <$> sockets w !! sid with
      | Some OPEN => handleMessage data
      | _ => mret ()
      end
  | WsError sid =>
      w ← get_world;
      match readyState <$> sockets w !! sid with
      | Some CLOSED | None => mret ()
      | Some _ => handleError
      end
  | WsClose sid code reason =>
      w ← get_world;
      match readyState <$> sockets w !! sid with
      | Some CLOSED | None => mret ()
      | Some _ => set_readyState sid CLOSED;; handleClose code reason
      end
  | TimerFire tid =>
      w ← get_world;
      match timers w !! tid with
      | Some t =>
          match kind t with
          | Timeout => set_timers (delete tid (timers w)) (nextTimer w)
          | Interval => mret ()
          end;;
          match callback t with
          | PingCallback => ping_callback
          | ReconnectCallback => reconnect_callback
          end
      | None => mret ()
      end
  end.

(** One task of the event loop; an exception that leaves a handler is
    reported by the browser and the loop goes on. *)
Definition step (ev : Event) (w : World) : World * list Effect :=
  match task ev w with
  | (Normal _, w', out) => (w', out)
  | (Thrown e, w', out) => (w', out ++ [UncaughtException e])
  end.

Fixpoint run (evs : list Event) (w : World) : World * list Effect :=
  match evs with
  | [] => (w, [])
  | ev :: rest =>
      match step ev w with
      | (w1, out1) =>
          match run rest w1 with
          | (w2, out2) => (w2, out1 ++ out2)
          end
      end
  end.

(** The worlds a client can be in: a fresh one, then any task.  Timers
    may fire in any order, whatever their delays. *)
Inductive reachable : World → Prop :=
  | reachable_init tok base : reachable (init tok base)
  | reachable_step ev w : reachable w → reachable (step ev w).1.

(** ** Vocabulary of the statements *)

(** The backoff state of the client. *)
Definition counters (w : World) : Z * Z * Z :=
  (reconnectAttempts (this w), reconnectTimeout (this w),
   maxReconnectAttempts (this w)).

(** The timer state of the client. *)
Definition timer_view (w : World) : gmap nat Timer * nat * option nat :=
  (timers w, nextTimer w, pingInterval (this w)).

(** A computation keeps a view of the world. *)
Definition keeps {X A : Type} (f : World → X) (m : M A) : Prop :=
  ∀ w, f (m w).1.2 = f w.

Definition reconnect_timer (ms : Z) : Timer :=
  {| kind := Timeout; callback := ReconnectCallback; delay := ms |}.

Definition keepalive_timer : Timer :=
  {| kind := Interval; callback := PingCallback; delay := 30000 |}.

Definition websocketError : Effect :=
  StoreDispatch "app/websocketError"
    (Some (JStr "Unable to establish WebSocket connection")).

(** A reconnection is pending: a reconnect timeout is armed. *)
Definition reconnect_pending (w : World) : Prop :=
  ∃ tid t, timers w !! tid = Some t ∧ callback t = ReconnectCallback.

(** The world [connect] leaves when the current socket is not open. *)
Definition connected (u : option string) (w : World) : World :=
  {| this := {| socket := Some (length (sockets w));
                reconnectAttempts := reconnectAttempts (this w);
                maxReconnectAttempts := maxReconnectAttempts (this w);
                reconnectTimeout := reconnectTimeout (this w);
                pingInterval := pingInterval (this w);
                userId := u |};
     sockets := sockets w ++
       [ {| url := (REACT_APP_WS_URL w ++ "/ws/" ++ template u)%string;
            readyState := CONNECTING;
            onopen := Some (if truthy (token w)
                            then SendAuthorization (template (token w))
                            else BoundHandleOpen) |} ];
     timers := timers w;
     nextTimer := nextTimer w;
     token := token w;
     REACT_APP_WS_URL := REACT_APP_WS_URL w |}.

(** The four lines [handleClose] and [disconnect] share: clear the
    interval [pingInterval] names, then forget it. *)
Definition stop_keepalive (w : World) : World :=
  match pingInterval (this w) with
  | Some p =>
      with_this {| socket := socket (this w);
                   reconnectAttempts := reconnectAttempts (this w);
                   maxReconnectAttempts := maxReconnectAttempts (this w);
                   reconnectTimeout := reconnectTimeout (this w);
                   pingInterval := None;
                   userId := userId (this w) |}
        (with_timers (delete p (timers w)) (nextTimer w) w)
  | None => w
  end.

(** What the first half of [disconnect] leaves: the current socket is
    closed with the normal-closure code and forgotten. *)
Definition forget_socket (w : World) : World :=
  with_this {| socket := None;
               reconnectAttempts := reconnectAttempts (this w);
               maxReconnectAttempts := maxReconnectAttempts (this w);
               reconnectTimeout := reconnectTimeout (this w);
               pingInterval := pingInterval (this w);
               userId := userId (this w) |} w.

Definition close_current (w : World) : World * list Effect :=
  match socket (this w) with
  | Some sid =>
      match sockets w !! sid with
      | Some ws =>
          match readyState ws with
          | CONNECTING | OPEN =>
              (forget_socket
                 (with_sockets (<[sid := {| url := url ws; readyState := CLOSING;
                                            onopen := onopen ws |}]> (sockets w)) w),
               [TransportClose sid 1000 "User disconnected"])
          | _ => (forget_socket w, [])
          end
      | None => (forget_socket w, [])
      end
  | None => (w, [])
  end.

(** The exponential backoff: the limit is 5, and the delay is 1000 ms
    doubled once per attempt counted. *)
Definition backoff_inv (w : World) : Prop :=
  maxReconnectAttempts (this w) = 5
  ∧ 0 ≤ reconnectAttempts (this w)
  ∧ reconnectTimeout (this w) = 1000 * 2 ^ reconnectAttempts (this w).

(** Timer ids are fresh, and [pingInterval] names a keepalive interval
    or an id no longer armed. *)
Definition timers_wf (w : World) : Prop :=
  (∀ tid, (nextTimer w ≤ tid)%nat → timers w !! tid = None)
  ∧ (∀ p, pingInterval (this w) = Some p →
       (p < nextTimer w)%nat
       ∧ ∀ t, timers w !! p = Some t → callback t = PingCallback).

(** The case labels of the [switch] of [handleMessage]: the registry of
    the types the client routes.  [pong] is routed to an empty body, the
    four others to a store action. *)
Definition sink_registry : list (string * option string) :=
  [ ("pong", None);
    ("chat_message", Some "chat/messageReceived");
    ("goal_update", Some "goals/goalUpdated");
    ("transaction_update", Some "finance/transactionUpdated");
    ("post_update", Some "community/postUpdated") ].

Definition registered (t : string) : Prop := t ∈ sink_registry.*1.

(** An inbound message the client cannot route: its data is not JSON,
    or it has no [type] (the value is [null], is no object, or has no
    such member), or its [type] is not a registered string. *)
Inductive unroutable : option JValue → Prop :=
  | unroutable_undecodable : unroutable None
  | unroutable_null : unroutable (Some JNull)
  | unroutable_no_type v :
      member_access v "type" = inr None → unroutable (Some v)
  | unroutable_not_string v ty :
      member_access v "type" = inr (Some ty) →
      (∀ t, ty ≠ JStr t) → unroutable (Some v)
  | unroutable_unknown v t :
      member_access v "type" = inr (Some (JStr t)) →
      ¬ registered t → unroutable (Some v).

(** The diagnostics of [handleMessage]. *)
Definition is_diagnostic (e : Effect) : Prop :=
  (∃ x, e = ConsoleError [LStr "Error parsing WebSocket message:"; LExn x])
  ∨ (∃ ty, e = ConsoleLog [LStr "Unhandled message type:"; LVal ty]).

(** The effects that invoke a sink or write to a transport. *)
Definition is_dispatch (e : Effect) : bool :=
  match e with StoreDispatch _ _ => true | _ => false end.

Definition is_transport_write (e : Effect) : bool :=
  match e with TransportSend _ _ => true | _ => false end.

(** The delay of the reconnect timeout a task armed, if it armed one.
    A task arms at most one timer, under the next free id. *)
Definition armed_by (w w' : World) : option Z :=
  if decide (nextTimer w' = S (nextTimer w)) then
    match timers w' !! nextTimer w with
    | Some t =>
        match callback t with
        | ReconnectCallback => Some (delay t)
        | PingCallback => None
        end
    | None => None
    end
  else None.

(** The delays of the reconnect timeouts armed along a run, in order. *)
Fixpoint delays (evs : list Event) (w : World) : list Z :=
  match evs with
  | [] => []
  | ev :: rest =>
      match armed_by w (step ev w).1 with
      | Some d => d :: delays rest (step ev w).1
      | None => delays rest (step ev w).1
      end
  end.

Ltac unmonad :=
  cbv [mbind mret M_bind M_ret get_world get_this emit throw lift set_this
       set_sockets set_timers set_token modify].

(** ** The store slice of the connection: [store/slices/websocketSlice.ts] *)

Module websocketSlice.

(** [WebSocketState].  A field holds [undefined] ([None]) or a value;
    [null] is the value [JNull]. *)
Record WebSocketState : Type := mkWebSocketState {
  connected : bool;
  error : option JValue;
  lastMessage : option JValue;
}.

Definition initialState : WebSocketState :=
  {| connected := false; error := Some JNull; lastMessage := Some JNull |}.

Record Action : Type := mkAction {
  type : string;
  payload : option JValue;
}.

(** The reducer [createSlice] builds for the name [websocket]: each case
    reducer under the type [websocket/<key>], and any other action leaves
    the state as it is. *)
Definition reducer (state : WebSocketState) (action : Action) : WebSocketState :=
  if String.eqb (type action) "websocket/connected" then
    {| connected := true; error := Some JNull; lastMessage := lastMessage state |}
  else if String.eqb (type action) "websocket/disconnected" then
    {| connected := false; error := error state; lastMessage := lastMessage state |}
  else if String.eqb (type action) "websocket/error" then
    {| connected := false; error := payload action; lastMessage := lastMessage state |}
  else if String.eqb (type action) "websocket/messageReceived" then
    {| connected := connected state; error := error state; lastMessage := payload action |}
  else state.

(** The action creators of [websocketSlice.actions] the thunks call,
    applied as they are called there. *)
Module actions.
Definition connected : Action :=
  {| type := "websocket/connected"; payload := None |}.
Definition disconnected : Action :=
  {| type := "websocket/disconnected"; payload := None |}.
End actions.

(** [dispatch(action)]: the action reaches the store. *)
Definition dispatch (action : Action) : M () :=
  emit (StoreDispatch (type action) (payload action)).

(** [connectWebSocket(userId)(dispatch)], with the verdict of the
    constructor on the URL.  Inside the [catch] the name [error] is the
    caught value, not the action creator, so the call [error(...)] raises
    a [TypeError] before anything is dispatched. *)
Definition connectWebSocket (userId : string) (accepted : bool) : M () :=
  try_catch
    (connect_checked accepted (Some userId);;
     dispatch actions.connected)
    (λ error, throw TypeError).

(** [disconnectWebSocket()(dispatch)] *)
Definition disconnectWebSocket : M () :=
  disconnect;;
  dispatch actions.disconnected.

(** [sendWebSocketMessage(message)()] *)
Definition sendWebSocketMessage (message : Data) : M () :=
  send_any message.

(** The application: the client in its world, and the slice of the
    store.  Every action dispatched during a task, by a thunk or by the
    client, goes through the reducer, in order. *)
Record Store : Type := mkStore {
  world : World;
  websocket : WebSocketState;
}.

Definition reduce_effect (state : WebSocketState) (e : Effect) : WebSocketState :=
  match e with
  | StoreDispatch t p => reducer state {| type := t; payload := p |}
  | _ => state
  end.

Inductive AppEvent : Type :=
  | Thunk_connectWebSocket (userId : string) (accepted : bool)
  | Thunk_disconnectWebSocket
  | Thunk_sendWebSocketMessage (message : Data)
  | Loop (ev : Event).

Definition app_task (e : AppEvent) : M () :=
  match e with
  | Thunk_connectWebSocket u accepted => connectWebSocket u accepted
  | Thunk_disconnectWebSocket => disconnectWebSocket
  | Thunk_sendWebSocketMessage m => sendWebSocketMessage m
  | Loop ev => task ev
  end.

Definition app_step (e : AppEvent) (st : Store) : Store * list Effect :=
  match app_task e (world st) with
  | (r, w', out) =>
      ({| world := w'; websocket := foldl reduce_effect (websocket st) out |},
       match r with
       | Normal _ => out
       | Thrown x => out ++ [UncaughtException x]
       end)
  end.

Fixpoint app_run (es : list AppEvent) (st : Store) : Store * list Effect :=
  match es with
  | [] => (st, [])
  | e :: rest =>
      match app_step e st with
      | (st1, out1) =>
          match app_run rest st1 with
          | (st2, out2) => (st2, out1 ++ out2)
          end
      end
  end.

End websocketSlice.

(** Every effect a computation writes satisfies [P]. *)
Definition emits {A : Type} (P : Effect → Prop) (m : M A) : Prop :=
  ∀ w, Forall P (m w).2.

(** An effect the slice does not react to. *)
Definition slice_neutral (e : Effect) : Prop :=
  ∀ state, websocketSlice.reduce_effect state e = state.

(** * Lemmas *)

(** ** Running the monad *)

Lemma bind_get_world {B : Type} (f : World → M B) (w : World) :
  (get_world ≫= f) w = f w w.
Proof. unmonad. by destruct (f w w) as [[r w2] out2]. Qed.

Lemma bind_get_this {B : Type} (f : WebSocketService → M B) (w : World) :
  (get_this ≫= f) w = f (this w) w.
Proof. unmonad. by destruct (f (this w) w) as [[r w2] out2]. Qed.

Lemma bind_ret {A B : Type} (a : A) (f : A → M B) (w : World) :
  (mret a ≫= f) w = f a w.
Proof. unmonad. by destruct (f a w) as [[r w2] out2]. Qed.

Lemma bind_normal {A B : Type} (m : M A) (f : A → M B) (w w1 : World) a out1 :
  m w = (Normal a, w1, out1) →
  (m ≫= f) w = ((f a w1).1.1, (f a w1).1.2, out1 ++ (f a w1).2).
Proof. intros E. unmonad. rewrite E. by destruct (f a w1) as [[r w2] out2]. Qed.

Lemma step_world (ev : Event) (w : World) : (step ev w).1 = (task ev w).1.2.
Proof. unfold step. by destruct (task ev w) as [[[a|e] w1] out1]. Qed.

Lemma step_normal (ev : Event) (w w' : World) (out : list Effect) :
  task ev w = (Normal (), w', out) → step ev w = (w', out).
Proof. intros E. unfold step. by rewrite E. Qed.

Lemma run_app (evs1 evs2 : list Event) (w : World) :
  run (evs1 ++ evs2) w
  = ((run evs2 (run evs1 w).1).1, (run evs1 w).2 ++ (run evs2 (run evs1 w).1).2).
Proof.
  revert w. induction evs1 as [|ev evs1 IH]; intros w; cbn.
  - by destruct (run evs2 w).
  - destruct (step ev w) as [w1 out1]. rewrite IH.
    destruct (run evs1 w1) as [w2 out2]. cbn.
    by rewrite app_assoc.
Qed.

Lemma reachable_run (evs : list Event) (w : World) :
  reachable w → reachable (run evs w).1.
Proof.
  revert w. induction evs as [|ev evs IH]; intros w Hw.
  - exact Hw.
  - specialize (IH (step ev w).1 (reachable_step ev w Hw)). cbn.
    destruct (step ev w) as [w1 out1]. cbn in IH. by destruct (run evs w1).
Qed.

(** ** Views a computation keeps *)

Section Keeps.
Context {X A B : Type} (f : World → X).

Lemma keeps_bind (m : M A) (k : A → M B) :
  keeps f m → (∀ a, keeps f (k a)) → keeps f (m ≫= k).
Proof.
  intros Hm Hk w. specialize (Hm w). unmonad.
  destruct (m w) as [[[a|e] w1] out1]; cbn in *; [|done].
  specialize (Hk a w1). destruct (k a w1) as [[r w2] out2]; cbn in *.
  congruence.
Qed.

Lemma keeps_try_catch (m : M A) (h : Exn → M A) :
  keeps f m → (∀ e, keeps f (h e)) → keeps f (try_catch m h).
Proof.
  intros Hm Hh w. specialize (Hm w). unfold try_catch.
  destruct (m w) as [[[a|e] w1] out1]; cbn in *; [done|].
  specialize (Hh e w1). destruct (h e w1) as [[r w2] out2]; cbn in *.
  congruence.
Qed.

Lemma keeps_ret (a : A) : keeps f (mret a : M A).
Proof. done. Qed.

Lemma keeps_throw (e : Exn) : keeps f (throw e : M A).
Proof. done. Qed.

Lemma keeps_lift (r : Exn + A) : keeps f (lift r).
Proof. by destruct r. Qed.

Lemma keeps_emit (e : Effect) : keeps f (emit e).
Proof. done. Qed.

Lemma keeps_get_world : keeps f get_world.
Proof. done. Qed.

Lemma keeps_get_this : keeps f get_this.
Proof. done. Qed.
End Keeps.

Create HintDb keeps.
#[local] Hint Resolve keeps_ret keeps_throw keeps_lift keeps_emit keeps_get_world
keeps_get_this : keeps.
(* an assignment keeps a view when the view does not read what it writes *)
#[local] Hint Extern 1 (keeps _ (set_sockets _)) => (by intros ?) : keeps.
#[local] Hint Extern 1 (keeps _ (set_timers _ _)) => (by intros ?) : keeps.
#[local] Hint Extern 1 (keeps _ (set_token _)) => (by intros ?) : keeps.
#[local] Hint Extern 1 (keeps _ (assign_socket _)) => (by intros ?) : keeps.
#[local] Hint Extern 1 (keeps _ (assign_userId _)) => (by intros ?) : keeps.
#[local] Hint Extern 1 (keeps _ (assign_pingInterval _)) => (by intros ?) : keeps.
#[local] Hint Extern 1 (keeps _ (assign_reconnectAttempts _)) => (by intros ?) : keeps.
#[local] Hint Extern 1 (keeps _ (assign_reconnectTimeout _)) => (by intros ?) : keeps.

Ltac keeps :=
repeat first
  [ solve [auto with keeps]
  | apply keeps_bind; [|intros ?]
  | apply keeps_try_catch; [|intros ?]
  | progress cbv zeta
  | case_match ].

Lemma counters_assign_onopen sid h : keeps counters (assign_onopen sid h).
Proof. unfold assign_onopen. keeps. Qed.
Lemma counters_set_readyState sid st : keeps counters (set_readyState sid st).
Proof. unfold set_readyState. keeps. Qed.
Lemma counters_new_WebSocket a u : keeps counters (new_WebSocket a u).
Proof. unfold new_WebSocket. keeps. Qed.
Lemma counters_WebSocket_send sid d : keeps counters (WebSocket_send sid d).
Proof. unfold WebSocket_send. keeps. Qed.
Lemma counters_setTimeout cb ms : keeps counters (setTimeout cb ms).
Proof. unfold setTimeout. keeps. Qed.
Lemma counters_clearInterval tid : keeps counters (clearInterval tid).
Proof. unfold clearInterval. keeps. Qed.
#[local] Hint Resolve counters_assign_onopen counters_set_readyState
  counters_new_WebSocket counters_WebSocket_send counters_setTimeout
  counters_clearInterval : keeps.

Lemma counters_WebSocket_close sid c r : keeps counters (WebSocket_close sid c r).
Proof. unfold WebSocket_close. keeps. Qed.
Lemma counters_send d : keeps counters (send d).
Proof. unfold send, send_any. keeps. Qed.
Lemma counters_connect u : keeps counters (connect u).
Proof. unfold connect, connect_checked. keeps. Qed.
Lemma counters_send_authorization tok : keeps counters (send_authorization tok).
Proof. unfold send_authorization. keeps. Qed.
Lemma counters_handleMessage d : keeps counters (handleMessage d).
Proof. unfold handleMessage. keeps. Qed.
Lemma counters_attemptReconnect : keeps counters attemptReconnect.
Proof. unfold attemptReconnect. keeps. Qed.
#[local] Hint Resolve counters_WebSocket_close counters_send counters_connect
  counters_send_authorization counters_handleMessage
  counters_attemptReconnect : keeps.

Lemma counters_handleClose c r : keeps counters (handleClose c r).
Proof. unfold handleClose. keeps. Qed.
Lemma counters_handleError : keeps counters handleError.
Proof. unfold handleError. keeps. Qed.
Lemma counters_disconnect : keeps counters disconnect.
Proof. unfold disconnect. keeps. Qed.
Lemma counters_ping_callback : keeps counters ping_callback.
Proof. unfold ping_callback. keeps. Qed.
#[local] Hint Resolve counters_set_readyState counters_send counters_connect
counters_send_authorization counters_handleMessage counters_handleClose
counters_handleError counters_disconnect counters_ping_callback : keeps.

Lemma timers_assign_onopen sid h : keeps timer_view (assign_onopen sid h).
Proof. unfold assign_onopen. keeps. Qed.
Lemma timers_set_readyState sid st : keeps timer_view (set_readyState sid st).
Proof. unfold set_readyState. keeps. Qed.
Lemma timers_new_WebSocket a u : keeps timer_view (new_WebSocket a u).
Proof. unfold new_WebSocket. keeps. Qed.
Lemma timers_WebSocket_send sid d : keeps timer_view (WebSocket_send sid d).
Proof. unfold WebSocket_send. keeps. Qed.
#[local] Hint Resolve timers_assign_onopen timers_set_readyState
  timers_new_WebSocket timers_WebSocket_send : keeps.

Lemma timers_send d : keeps timer_view (send d).
Proof. unfold send, send_any. keeps. Qed.
Lemma timers_connect u : keeps timer_view (connect u).
Proof. unfold connect, connect_checked. keeps. Qed.
Lemma timers_send_authorization tok : keeps timer_view (send_authorization tok).
Proof. unfold send_authorization. keeps. Qed.
Lemma timers_handleMessage d : keeps timer_view (handleMessage d).
Proof. unfold handleMessage. keeps. Qed.
Lemma timers_handleError : keeps timer_view handleError.
Proof. unfold handleError. keeps. Qed.
#[local] Hint Resolve timers_send timers_connect : keeps.

Lemma timers_ping_callback : keeps timer_view ping_callback.
Proof. unfold ping_callback. keeps. Qed.
Lemma timers_reconnect_callback : keeps timer_view reconnect_callback.
Proof. unfold reconnect_callback. keeps. Qed.
#[local] Hint Resolve timers_set_readyState timers_send timers_connect
timers_send_authorization timers_handleMessage timers_handleError
timers_ping_callback timers_reconnect_callback : keeps.

(** ** The equations of the methods *)

Lemma lookup_snoc {A : Type} (l : list A) (x : A) : (l ++ [x]) !! length l = Some x.
Proof. by apply list_lookup_middle. Qed.

Lemma insert_snoc {A : Type} (l : list A) (x y : A) :
  <[length l := y]> (l ++ [x]) = l ++ [y].
Proof.
  rewrite (insert_app_r_alt _ _ (length l)) by lia.
  by rewrite Nat.sub_diag.
Qed.

Lemma set_readyState_Some (sid : nat) (st : ReadyState) (w : World) (ws : WebSocket) :
  sockets w !! sid = Some ws →
  set_readyState sid st w
  = (Normal (),
     with_sockets (<[sid := {| url := url ws; readyState := st;
                               onopen := onopen ws |}]> (sockets w)) w,
     []).
Proof. intros H. unfold set_readyState. rewrite bind_get_world, H. reflexivity. Qed.

Lemma send_not_open (d : JValue) (w : World) :
  socket_is_open w = false →
  send d w = (Normal (), w, [ConsoleError [LStr "WebSocket is not connected"]]).
Proof. intros H. unfold send, send_any. rewrite bind_get_world, H. reflexivity. Qed.

Lemma socket_is_open_true (w : World) :
  socket_is_open w = true ↔
  ∃ sid, socket (this w) = Some sid ∧ readyState <$> sockets w !! sid = Some OPEN.
Proof.
  unfold socket_is_open. split.
  - destruct (socket (this w)) as [sid|]; [|done].
    destruct (sockets w !! sid) as [ws|] eqn:Hws; [|done].
    intros H. exists sid. split; [done|]. rewrite Hws. cbn.
    by destruct (readyState ws).
  - intros (sid & -> & H). destruct (sockets w !! sid) as [ws|]; [|done].
    cbn in H. by injection H as ->.
Qed.

Lemma send_open (d : JValue) (w : World) (sid : nat) :
  socket (this w) = Some sid →
  readyState <$> sockets w !! sid = Some OPEN →
  send d w = (Normal (), w, [TransportSend sid d]).
Proof.
  intros Hs Hr. unfold send, send_any. rewrite bind_get_world.
  rewrite (proj2 (socket_is_open_true w)) by eauto.
  rewrite Hs. cbn [JSON_stringify lift]. rewrite bind_ret.
  unfold WebSocket_send. rewrite bind_get_world, Hr. reflexivity.
Qed.

Lemma connect_not_open (u : option string) (w : World) :
  socket_is_open w = false →
  connect u w = (Normal (), connected u w, []).
Proof.
  intros H. unfold connect, connect_checked. rewrite bind_get_world, H.
  cbv [assign_userId assign_socket assign_onopen new_WebSocket]. unmonad.
  unfold connected, with_this, with_sockets.
  cbn. rewrite lookup_snoc. cbn. rewrite insert_snoc.
  destruct (truthy (token w)); cbn; [|done].
  rewrite lookup_snoc. cbn. rewrite insert_snoc. reflexivity.
Qed.

Lemma connect_open (u : option string) (w : World) :
  socket_is_open w = true → connect u w = (Normal (), w, []).
Proof.
  intros H. unfold connect, connect_checked. rewrite bind_get_world, H. reflexivity.
Qed.

(** On a URL the constructor accepts, [connect] raises nothing. *)
Lemma connect_normal (u : option string) (w : World) :
  (connect u w).1.1 = Normal ().
Proof.
  destruct (socket_is_open w) eqn:H.
  - by rewrite connect_open.
  - by rewrite connect_not_open.
Qed.

Lemma handleOpen_eq (w : World) :
  handleOpen w =
  (Normal (),
   {| this := {| socket := socket (this w);
                 reconnectAttempts := 0;
                 maxReconnectAttempts := maxReconnectAttempts (this w);
                 reconnectTimeout := 1000;
                 pingInterval := Some (nextTimer w);
                 userId := userId (this w) |};
      sockets := sockets w;
      timers := <[nextTimer w := keepalive_timer]> (timers w);
      nextTimer := S (nextTimer w);
      token := token w;
      REACT_APP_WS_URL := REACT_APP_WS_URL w |},
   [ConsoleLog [LStr "WebSocket connected"]]).
Proof. reflexivity. Qed.

Lemma attemptReconnect_eq (w : World) :
  attemptReconnect w =
  if (reconnectAttempts (this w) <? maxReconnectAttempts (this w))
     && truthy (userId (this w))
  then (Normal (),
        with_timers (<[nextTimer w := reconnect_timer (reconnectTimeout (this w))]> (timers w))
                    (S (nextTimer w)) w, [])
  else (Normal (), w,
        [ConsoleError [LStr "Max reconnection attempts reached"]; websocketError]).
Proof.
  unfold attemptReconnect. rewrite bind_get_this.
  by destruct (_ && _).
Qed.

Lemma handleClose_eq (code : Z) (reason : string) (w : World) :
  handleClose code reason w =
  if code =? 1000
  then (Normal (), stop_keepalive w,
        [ConsoleLog [LStr "WebSocket disconnected:"; LNum code; LStr reason]])
  else ((attemptReconnect (stop_keepalive w)).1.1,
        (attemptReconnect (stop_keepalive w)).1.2,
        ConsoleLog [LStr "WebSocket disconnected:"; LNum code; LStr reason]
          :: (attemptReconnect (stop_keepalive w)).2).
Proof.
  unfold handleClose, stop_keepalive.
  destruct (pingInterval (this w)) as [p|] eqn:Hp;
    cbv [clearInterval assign_pingInterval]; unmonad; rewrite Hp; cbn;
    destruct (code =? 1000); cbn; try done.
  - by destruct (attemptReconnect _) as [[r w2] out2].
  - by destruct (attemptReconnect _) as [[r w2] out2].
Qed.

Lemma disconnect_eq (w : World) :
  disconnect w = (Normal (), stop_keepalive (close_current w).1, (close_current w).2).
Proof.
  unfold disconnect, close_current, stop_keepalive.
  cbv [WebSocket_close set_readyState assign_socket clearInterval assign_pingInterval].
  unmonad.
  destruct (socket (this w)) as [sid|] eqn:Hs.
  - destruct (sockets w !! sid) as [ws|] eqn:Hws; cbn.
    + destruct (readyState ws) eqn:Hr; cbn; rewrite ?Hws; cbn.
      all: destruct (pingInterval (this w)) eqn:Hp; cbn; rewrite ?Hp.
      all: unfold forget_socket; cbn; rewrite ?Hp; done.
    + destruct (pingInterval (this w)) eqn:Hp; cbn; rewrite ?Hp;
        unfold forget_socket; cbn; rewrite ?Hp; done.
  - destruct (pingInterval (this w)) eqn:Hp; cbn; rewrite ?Hp; done.
Qed.

Lemma reconnect_callback_counters (w : World) :
  counters (reconnect_callback w).1.2
  = (reconnectAttempts (this w) + 1, reconnectTimeout (this w) * 2,
     maxReconnectAttempts (this w)).
Proof.
  unfold reconnect_callback. rewrite bind_get_this.
  pose proof (counters_connect (userId (this w)) w) as Hk.
  pose proof (connect_normal (userId (this w)) w) as Hn.
  destruct (connect (userId (this w)) w) as [[r w1] out1] eqn:E.
  cbn in Hk, Hn. subst r.
  cbv [assign_reconnectAttempts assign_reconnectTimeout]. unmonad.
  rewrite E. cbn. unfold counters in *. cbn. injection Hk as -> -> ->. reflexivity.
Qed.

(** The reconnect callback when the current socket is not open: a new
    socket, then the two counters. *)
Lemma reconnect_callback_not_open (w : World) :
  socket_is_open w = false →
  reconnect_callback w =
  (Normal (),
   with_this {| socket := Some (length (sockets w));
                reconnectAttempts := reconnectAttempts (this w) + 1;
                maxReconnectAttempts := maxReconnectAttempts (this w);
                reconnectTimeout := reconnectTimeout (this w) * 2;
                pingInterval := pingInterval (this w);
                userId := userId (this w) |}
     (connected (userId (this w)) w),
   [ConsoleLog [LStr "Attempting to reconnect... (";
                LNum (reconnectAttempts (this w) + 1); LStr "/";
                LNum (maxReconnectAttempts (this w)); LStr ")"]]).
Proof.
  intros H. unfold reconnect_callback. rewrite bind_get_this.
  cbv [assign_reconnectAttempts assign_reconnectTimeout]. unmonad.
  rewrite (connect_not_open _ _ H). reflexivity.
Qed.

(** The keepalive callback while the current socket is open. *)
Lemma ping_callback_open (w : World) (sid : nat) :
  socket (this w) = Some sid →
  readyState <$> sockets w !! sid = Some OPEN →
  ping_callback w = (Normal (), w, [TransportSend sid ping_frame]).
Proof. apply send_open. Qed.

(** ** The counters along a run *)

Lemma backoff_inv_counters (w w' : World) :
  counters w' = counters w → backoff_inv w → backoff_inv w'.
Proof. unfold counters, backoff_inv. intros [= -> -> ->]. done. Qed.

(** How one task changes the counters: it keeps them, or it is an
    [open] handled by [handleOpen], or a reconnect callback that runs. *)
Lemma task_counters (ev : Event) (w : World) :
  counters (task ev w).1.2 = counters w
  ∨ (∃ sid ws, ev = WsOpen sid ∧ sockets w !! sid = Some ws
       ∧ readyState ws = CONNECTING ∧ onopen ws = Some BoundHandleOpen
       ∧ counters (task ev w).1.2 = (0, 1000, maxReconnectAttempts (this w)))
  ∨ (∃ tid t, ev = TimerFire tid ∧ timers w !! tid = Some t
       ∧ callback t = ReconnectCallback
       ∧ counters (task ev w).1.2
         = (reconnectAttempts (this w) + 1, reconnectTimeout (this w) * 2,
            maxReconnectAttempts (this w))).
Proof.
  destruct ev as [u|d| |tok|sid|sid d|sid|sid code reason|tid].
  1-4,6-8:
    left;
    match goal with
    | |- counters (task ?e _).1.2 = _ =>
        enough (keeps counters (task e)) as K by apply K
    end;
    unfold task; keeps.
  - (* open *)
    unfold task. rewrite bind_get_world.
    destruct (sockets w !! sid) as [ws|] eqn:Hws; [|by left].
    destruct (readyState ws) eqn:Hst; try by left.
    cbn [ReadyState_eqb].
    destruct (onopen ws) as [[|tok]|] eqn:Hh.
    + right; left. exists sid, ws. repeat split; try done.
      rewrite (bind_normal _ _ _ _ _ _ (set_readyState_Some sid OPEN w ws Hws)).
      reflexivity.
    + left.
      enough (keeps counters (set_readyState sid OPEN;; send_authorization tok))
        as K by apply K.
      keeps.
    + left.
      enough (keeps counters (set_readyState sid OPEN;; mret ())) as K by apply K.
      keeps.
  - (* timer *)
    unfold task. rewrite bind_get_world.
    destruct (timers w !! tid) as [t|] eqn:Ht; [|by left].
    destruct (callback t) eqn:Hcb.
    + left.
      enough (keeps counters
                (match kind t with
                 | Timeout => set_timers (delete tid (timers w)) (nextTimer w)
                 | Interval => mret ()
                 end;; ping_callback)) as K by apply K.
      keeps.
    + right; right. exists tid, t. repeat split; try done.
      destruct (kind t).
      * rewrite bind_ret. apply reconnect_callback_counters.
      * rewrite (bind_normal _ _ w (with_timers (delete tid (timers w)) (nextTimer w) w) () [])
          by reflexivity.
        cbn [fst snd]. rewrite reconnect_callback_counters. reflexivity.
Qed.

Lemma step_backoff (ev : Event) (w : World) :
  backoff_inv w → backoff_inv (step ev w).1.
Proof.
  intros Hinv. rewrite step_world.
  destruct (task_counters ev w)
    as [H|[(sid & ws & _ & _ & _ & _ & H)|(tid & t & _ & _ & _ & H)]].
  - by apply (backoff_inv_counters w).
  - destruct Hinv as (Hmax & Hpos & Hto). unfold counters in H.
    injection H as H1 H2 H3.
    unfold backoff_inv. rewrite H1, H2, H3. done.
  - destruct Hinv as (Hmax & Hpos & Hto). unfold counters in H.
    injection H as H1 H2 H3.
    unfold backoff_inv. rewrite H1, H2, H3. repeat split; [done|lia|].
    rewrite Hto, Z.pow_add_r by lia. lia.
Qed.

Lemma reachable_backoff (w : World) : reachable w → backoff_inv w.
Proof.
  induction 1 as [tok base|ev w _ IH].
  - by repeat split.
  - by apply step_backoff.
Qed.

(** ** The timers along a run *)

Lemma timers_wf_view (w w' : World) :
  timer_view w' = timer_view w → timers_wf w → timers_wf w'.
Proof. unfold timer_view, timers_wf. intros [= -> -> ->]. done. Qed.

Lemma timers_wf_delete (tid : nat) (w : World) :
  timers_wf w → timers_wf (with_timers (delete tid (timers w)) (nextTimer w) w).
Proof.
  intros [Hfresh Hping]. split; cbn.
  - intros i Hi. rewrite lookup_delete_None. right. by apply Hfresh.
  - intros p Hp. destruct (Hping p Hp) as [Hlt Hcb]. split; [done|].
    intros t Ht. apply lookup_delete_Some in Ht as [_ Ht]. by apply Hcb.
Qed.

Lemma timers_wf_stop_keepalive (w : World) :
  timers_wf w → timers_wf (stop_keepalive w).
Proof.
  intros Hwf. unfold stop_keepalive.
  destruct (pingInterval (this w)) as [p|] eqn:Hp; [|exact Hwf].
  destruct Hwf as [Hfresh Hping].
  split; cbn; [|done].
  intros i Hi. rewrite lookup_delete_None. right. by apply Hfresh.
Qed.

Lemma timers_wf_arm (t : Timer) (w : World) :
  timers_wf w →
  timers_wf (with_timers (<[nextTimer w := t]> (timers w)) (S (nextTimer w)) w).
Proof.
  intros [Hfresh Hping]. split; cbn.
  - intros i Hi. rewrite lookup_insert_ne by lia. apply Hfresh. lia.
  - intros p Hp. destruct (Hping p Hp) as [Hlt Hcb]. split; [lia|].
    intros t'. rewrite lookup_insert_ne by lia. apply Hcb.
Qed.

Lemma timers_wf_attemptReconnect (w : World) :
  timers_wf w → timers_wf (attemptReconnect w).1.2.
Proof.
  intros H. rewrite attemptReconnect_eq. destruct (_ && _); cbn; [|done].
  by apply timers_wf_arm.
Qed.

Lemma timers_wf_handleClose (code : Z) (reason : string) (w : World) :
  timers_wf w → timers_wf (handleClose code reason w).1.2.
Proof.
  intros H. rewrite handleClose_eq.
  destruct (code =? 1000); cbn.
  - by apply timers_wf_stop_keepalive.
  - by apply timers_wf_attemptReconnect, timers_wf_stop_keepalive.
Qed.

Lemma timer_view_close_current (w : World) :
  timer_view (close_current w).1 = timer_view w.
Proof. unfold close_current. by repeat case_match. Qed.

Lemma timers_wf_handleOpen (w : World) :
  timers_wf w → timers_wf (handleOpen w).1.2.
Proof.
  intros [Hfresh Hping]. rewrite handleOpen_eq. split; cbn.
  - intros i Hi. rewrite lookup_insert_ne by lia. apply Hfresh. lia.
  - intros p [= <-]. split; [lia|]. intros t.
    rewrite lookup_insert_eq. by intros [= <-].
Qed.

Lemma step_timers_wf (ev : Event) (w : World) :
  timers_wf w → timers_wf (step ev w).1.
Proof.
  intros Hwf. rewrite step_world.
  destruct ev as [u|d| |tok|sid|sid d|sid|sid code reason|tid].
  1,2,4,6,7:
    apply (timers_wf_view w); [|done];
    match goal with
    | |- timer_view (task ?e _).1.2 = _ =>
        enough (keeps timer_view (task e)) as K by apply K
    end;
    unfold task; keeps.
  - (* disconnect *)
    cbn [task]. rewrite disconnect_eq. cbn [fst snd].
    apply timers_wf_stop_keepalive.
    apply (timers_wf_view w); [apply timer_view_close_current|done].
  - (* open *)
    unfold task. rewrite bind_get_world.
    destruct (sockets w !! sid) as [ws|] eqn:Hws; [|done].
    destruct (readyState ws) eqn:Hst; try done.
    cbn [ReadyState_eqb].
    rewrite (bind_normal _ _ _ _ _ _ (set_readyState_Some sid OPEN w ws Hws)).
    cbn [fst snd].
    set (w1 := with_sockets _ w).
    assert (timers_wf w1) as Hwf1 by done.
    destruct (onopen ws) as [[|tok]|].
    + by apply timers_wf_handleOpen.
    + apply (timers_wf_view w1); [apply timers_send_authorization|done].
    + done.
  - (* close *)
    unfold task. rewrite bind_get_world.
    destruct (sockets w !! sid) as [ws|] eqn:Hws; [|done]. cbn.
    assert (timers_wf
              ((set_readyState sid CLOSED;; handleClose code reason) w).1.2) as K.
    { rewrite (bind_normal _ _ _ _ _ _ (set_readyState_Some sid CLOSED w ws Hws)).
      cbn [fst snd]. by apply timers_wf_handleClose. }
    by destruct (readyState ws).
  - (* timer *)
    unfold task. rewrite bind_get_world.
    destruct (timers w !! tid) as [t|] eqn:Ht; [|done].
    assert (∀ w', timers_wf w' →
              timers_wf (match callback t with
                         | PingCallback => ping_callback
                         | ReconnectCallback => reconnect_callback
                         end w').1.2) as K.
    { intros w' Hw'. apply (timers_wf_view w'); [|done].
      destruct (callback t);
        [apply timers_ping_callback|apply timers_reconnect_callback]. }
    destruct (kind t).
    + rewrite bind_ret. by apply K.
    + rewrite (bind_normal _ _ w (with_timers (delete tid (timers w)) (nextTimer w) w) () [])
        by reflexivity.
      cbn [fst snd]. by apply K, timers_wf_delete.
Qed.

Lemma reachable_timers_wf (w : World) : reachable w → timers_wf w.
Proof.
  induction 1 as [tok base|ev w _ IH].
  - split; [done|]. by intros p.
  - by apply step_timers_wf.
Qed.

(** * The claims *)

(** ** Opening a connection *)

Lemma truthy_Some (s : string) : s ≠ "" → truthy (Some s) = true.
Proof.
  intros H. unfold truthy. destruct (String.eqb_spec s ""); [done|reflexivity].
Qed.

Lemma step_connect_not_open (u : string) (w : World) :
  socket_is_open w = false →
  step (CallConnect u) w = (connected (Some u) w, []).
Proof. intros H. apply step_normal. by apply connect_not_open. Qed.

(** The task of the [open] event of the socket [connect] has just made. *)
Lemma open_after_connect (u : option string) (w : World) :
  task (WsOpen (length (sockets w))) (connected u w)
  = (if truthy (token w)
     then send_authorization (template (token w))
     else handleOpen)
      (with_sockets
         (sockets w ++
            [ {| url := (REACT_APP_WS_URL w ++ "/ws/" ++ template u)%string;
                 readyState := OPEN;
                 onopen := Some (if truthy (token w)
                                 then SendAuthorization (template (token w))
                                 else BoundHandleOpen) |} ])
         (connected u w)).
Proof.
  unfold task. rewrite bind_get_world.
  cbn [connected sockets]. rewrite lookup_snoc. cbn [readyState ReadyState_eqb onopen].
  erewrite bind_normal; last first.
  { apply set_readyState_Some. cbn [sockets]. apply lookup_snoc. }
  cbn [fst snd connected sockets url onopen]. rewrite insert_snoc.
  destruct (truthy (token w)).
  - by destruct (send_authorization _ _) as [[r w2] out2].
  - by destruct (handleOpen _) as [[r w2] out2].
Qed.

(** C1 (the code departs from it).  When the store holds a token,
    [connect] replaces the [onopen] handler it has just bound to
    [handleOpen] by the function that sends the token.  So when the
    transport opens, the handshake [{ authorization: "Bearer <token>" }]
    is the one frame written, but [handleOpen] never runs: no keepalive
    interval is armed ([timers], the next timer id and [pingInterval] are
    what they were before [connect]) and the counters are untouched. *)
Theorem open_with_token_arms_no_keepalive (w : World) (u tok : string) :
  socket_is_open w = false → token w = Some tok → tok ≠ "" →
  let sid := length (sockets w) in
  let w1 := (step (CallConnect u) w).1 in
  let r := step (WsOpen sid) w1 in
  readyState <$> sockets r.1 !! sid = Some OPEN
  ∧ r.2 = [TransportSend sid (authorization_frame tok)]
  ∧ timer_view r.1 = timer_view w
  ∧ counters r.1 = counters w.
Proof.
  intros Hopen Htok Hne. cbn zeta.
  rewrite (step_connect_not_open u w Hopen). cbn [fst].
  unfold step. rewrite open_after_connect, Htok, (truthy_Some _ Hne).
  cbn [template]. unfold send_authorization. rewrite bind_get_this.
  cbn [with_sockets this connected socket].
  unfold WebSocket_send. rewrite bind_get_world.
  cbn [sockets with_sockets]. rewrite lookup_snoc. cbn.
  rewrite lookup_snoc. done.
Qed.

Lemma open_with_token_arms_no_keepalive_witness :
  readyState <$> sockets (step (WsOpen 0) (step (CallConnect "u") (init (Some "secret") "wss://host")).1).1 !! 0%nat
  = Some OPEN
  ∧ (step (WsOpen 0) (step (CallConnect "u") (init (Some "secret") "wss://host")).1).2
    = [TransportSend 0 (authorization_frame "secret")]
  ∧ timer_view (step (WsOpen 0) (step (CallConnect "u") (init (Some "secret") "wss://host")).1).1
    = timer_view (init (Some "secret") "wss://host")
  ∧ counters (step (WsOpen 0) (step (CallConnect "u") (init (Some "secret") "wss://host")).1).1
    = counters (init (Some "secret") "wss://host").
Proof.
  apply (open_with_token_arms_no_keepalive (init (Some "secret") "wss://host") "u" "secret");
    [reflexivity | reflexivity | discriminate].
Defined.

(** Without a token the handler stays [handleOpen]: the keepalive
    interval of 30000 ms is armed and the counters are reset, and no
    handshake is written. *)
Lemma open_without_token_arms_keepalive (w : World) (u : string) :
  socket_is_open w = false → truthy (token w) = false →
  let sid := length (sockets w) in
  let w1 := (step (CallConnect u) w).1 in
  let r := step (WsOpen sid) w1 in
  r.2 = [ConsoleLog [LStr "WebSocket connected"]]
  ∧ timer_view r.1
    = (<[nextTimer w := keepalive_timer]> (timers w), S (nextTimer w), Some (nextTimer w))
  ∧ counters r.1 = (0, 1000, maxReconnectAttempts (this w)).
Proof.
  intros Hopen Htok. cbn zeta.
  rewrite (step_connect_not_open u w Hopen). cbn [fst].
  unfold step. rewrite open_after_connect, Htok. done.
Qed.

(** The handlers stay bound to the client when a socket is superseded:
    after two calls of [connect] the [open] of the first socket runs the
    token function on the second, which is still CONNECTING, so that
    [send] raises and nothing is written. *)
Example open_of_superseded_socket :
  (run [CallConnect "u"; CallConnect "u"; WsOpen 0] (init (Some "secret") "wss://host")).2
  = [UncaughtException InvalidStateError].
Proof. vm_compute. reflexivity. Qed.

(** The keepalive callback of an open connection writes one
    [{ type: "ping" }] and changes nothing. *)
Lemma keepalive_tick (w : World) (sid tid : nat) (t : Timer) :
  socket (this w) = Some sid →
  readyState <$> sockets w !! sid = Some OPEN →
  timers w !! tid = Some t → kind t = Interval → callback t = PingCallback →
  step (TimerFire tid) w = (w, [TransportSend sid ping_frame]).
Proof.
  intros Hs Hr Ht Hk Hc. apply step_normal.
  unfold task. rewrite bind_get_world, Ht, Hk, Hc, bind_ret.
  by apply ping_callback_open.
Qed.

Lemma keepalive_ticks (n : nat) (w : World) (sid tid : nat) (t : Timer) :
  socket (this w) = Some sid →
  readyState <$> sockets w !! sid = Some OPEN →
  timers w !! tid = Some t → kind t = Interval → callback t = PingCallback →
  run (repeat (TimerFire tid) n) w = (w, repeat (TransportSend sid ping_frame) n).
Proof.
  intros Hs Hr Ht Hk Hc. induction n as [|n IH]; [done|].
  cbn. rewrite (keepalive_tick w sid tid t) by done. by rewrite IH.
Qed.

Lemma keepalive_ticks_world (n : nat) (w : World) (sid tid : nat) (t : Timer) :
  socket (this w) = Some sid →
  readyState <$> sockets w !! sid = Some OPEN →
  timers w !! tid = Some t → kind t = Interval → callback t = PingCallback →
  (run (repeat (TimerFire tid) n) w).1 = w.
Proof. intros. by rewrite (keepalive_ticks n w sid tid t). Qed.

(** ** Disconnecting *)

Lemma step_disconnect (w : World) :
  step CallDisconnect w = (stop_keepalive (close_current w).1, (close_current w).2).
Proof. apply step_normal. cbn [task]. apply disconnect_eq. Qed.

Lemma close_current_this (w : World) :
  this (close_current w).1 = this w ∧ socket (this w) = None
  ∨ this (close_current w).1 = this (forget_socket w).
Proof. unfold close_current. repeat case_match; auto. Qed.

Lemma close_current_length (w : World) :
  length (sockets (close_current w).1) = length (sockets w).
Proof.
  unfold close_current. repeat case_match; cbn; by rewrite ?length_insert.
Qed.

Lemma stop_keepalive_this (w : World) :
  this (stop_keepalive w) =
  {| socket := socket (this w);
     reconnectAttempts := reconnectAttempts (this w);
     maxReconnectAttempts := maxReconnectAttempts (this w);
     reconnectTimeout := reconnectTimeout (this w);
     pingInterval := None;
     userId := userId (this w) |}.
Proof.
  unfold stop_keepalive. destruct (pingInterval (this w)) eqn:Hp; [done|].
  destruct (this w); cbn in *. by subst.
Qed.

Lemma stop_keepalive_timers (w : World) :
  timers (stop_keepalive w)
  = match pingInterval (this w) with
    | Some p => delete p (timers w)
    | None => timers w
    end.
Proof. unfold stop_keepalive. by destruct (pingInterval (this w)). Qed.

Lemma stop_keepalive_sockets (w : World) :
  sockets (stop_keepalive w) = sockets w.
Proof. unfold stop_keepalive. by destruct (pingInterval (this w)). Qed.

Lemma stop_keepalive_nextTimer (w : World) :
  nextTimer (stop_keepalive w) = nextTimer w.
Proof. unfold stop_keepalive. by destruct (pingInterval (this w)). Qed.

(** What [disconnect] leaves of the client and of the timers. *)
Lemma disconnect_leaves (w : World) :
  let w1 := (step CallDisconnect w).1 in
  socket (this w1) = None
  ∧ pingInterval (this w1) = None
  ∧ userId (this w1) = userId (this w)
  ∧ length (sockets w1) = length (sockets w)
  ∧ nextTimer w1 = nextTimer w
  ∧ timers w1 = match pingInterval (this w) with
                | Some p => delete p (timers w)
                | None => timers w
                end.
Proof.
  cbn zeta. rewrite step_disconnect. cbn [fst].
  rewrite stop_keepalive_this, stop_keepalive_timers, stop_keepalive_sockets,
    stop_keepalive_nextTimer, close_current_length.
  pose proof (timer_view_close_current w) as [= -> -> ->].
  cbn. destruct (close_current_this w) as [[-> ->]| ->]; done.
Qed.





(** ** The attempt counter *)

Lemma step_open_handleOpen (w : World) (sid : nat) (ws : WebSocket) :
  sockets w !! sid = Some ws → readyState ws = CONNECTING →
  onopen ws = Some BoundHandleOpen →
  step (WsOpen sid) w
  = ((handleOpen
        (with_sockets (<[sid := {| url := url ws; readyState := OPEN;
                                   onopen := onopen ws |}]> (sockets w)) w)).1.2,
     [ConsoleLog [LStr "WebSocket connected"]]).
Proof.
  intros Hws Hst Hh. apply step_normal.
  unfold task. rewrite bind_get_world, Hws, Hst. cbn [ReadyState_eqb].
  rewrite (bind_normal _ _ _ _ _ _ (set_readyState_Some sid OPEN w ws Hws)).
  rewrite Hh. reflexivity.
Qed.




(** ** Keepalive *)

(** An open connection without token, its keepalive interval armed. *)
Lemma open_fixture_is_open :
  socket_is_open (run [CallConnect "u"; WsOpen 0] (init None "wss://host")).1 = true.
Proof. vm_compute; reflexivity. Qed.

Lemma open_fixture_timers :
  timers (run [CallConnect "u"; WsOpen 0] (init None "wss://host")).1
  = {[ 1%nat := keepalive_timer ]}.
Proof. vm_compute; reflexivity. Qed.

Lemma open_fixture_ticks (n : nat) :
  (run (repeat (TimerFire 1) n)
       (run [CallConnect "u"; WsOpen 0] (init None "wss://host")).1).1
  = (run [CallConnect "u"; WsOpen 0] (init None "wss://host")).1.
Proof.
  apply (keepalive_ticks_world n _ 0%nat 1%nat keepalive_timer); vm_compute; reflexivity.
Qed.

Lemma open_fixture_not_pending :
  ¬ reconnect_pending (run [CallConnect "u"; WsOpen 0] (init None "wss://host")).1.
Proof.
  intros (tid & t & Ht & Hc). rewrite open_fixture_timers in Ht.
  apply lookup_singleton_Some in Ht as [_ <-]. done.
Qed.

(** C4, the claim as it stands is false: on an open connection with
    its keepalive interval armed (id 1), let the interval fire any number
    of times with no inbound traffic at all: the socket stays open and no
    reconnection is ever pending. *)
Lemma silence_never_reconnects :
  let w0 := (run [CallConnect "u"; WsOpen 0] (init None "wss://host")).1 in
  socket_is_open w0 = true
  ∧ ¬ ∃ n : nat,
        let w := (run (repeat (TimerFire 1) n) w0).1 in
        reconnect_pending w ∨ socket_is_open w = false.
Proof.
  cbn zeta. split; [exact open_fixture_is_open|].
  intros [n H]. rewrite open_fixture_ticks in H.
  destruct H as [H|H].
  - by apply open_fixture_not_pending.
  - rewrite open_fixture_is_open in H. done.
Qed.

(** C4, amended.  While the connection is open, each period of the
    keepalive interval writes one [{ type: "ping" }] and changes nothing
    else: after any number of periods without inbound traffic the world
    is the same, so the connection is still open and no reconnection has
    been scheduled.  A [pong] is read and ignored; its absence triggers
    nothing either. *)
Theorem keepalive_only_pings (w : World) (sid tid : nat) (t : Timer) :
  socket (this w) = Some sid →
  readyState <$> sockets w !! sid = Some OPEN →
  timers w !! tid = Some t → kind t = Interval → callback t = PingCallback →
  (∀ n, run (repeat (TimerFire tid) n) w
        = (w, repeat (TransportSend sid ping_frame) n))
  ∧ step (WsMessage sid (Some (JObj [("type", JStr "pong")]))) w = (w, []).
Proof.
  intros Hs Hr Ht Hk Hc. split.
  - intros n. by apply (keepalive_ticks n w sid tid t).
  - apply step_normal. unfold task. rewrite bind_get_world, Hr. reflexivity.
Qed.

Lemma keepalive_only_pings_witness :
  let w0 := (run [CallConnect "u"; WsOpen 0] (init None "wss://host")).1 in
  run (repeat (TimerFire 1) 3) w0
  = (w0, [TransportSend 0 ping_frame; TransportSend 0 ping_frame;
          TransportSend 0 ping_frame]).
Proof.
  cbn zeta.
  refine (proj1 (keepalive_only_pings
    (run [CallConnect "u"; WsOpen 0] (init None "wss://host")).1
    0%nat 1%nat keepalive_timer _ _ _ _ _) 3%nat);
    vm_compute; reflexivity.
Defined.

(** ** Closing and the reconnect policy *)

Lemma handleClose_outcome (w : World) (code : Z) (reason : string) :
  match handleClose code reason w with
  | (Normal _, w', out) => (w', out)
  | (Thrown e, w', out) => (w', out ++ [UncaughtException e])
  end
  = if code =? 1000
    then (stop_keepalive w,
          [ConsoleLog [LStr "WebSocket disconnected:"; LNum code; LStr reason]])
    else if (reconnectAttempts (this w) <? maxReconnectAttempts (this w))
            && truthy (userId (this w))
    then (with_timers (<[nextTimer w := reconnect_timer (reconnectTimeout (this w))]>
                         (timers (stop_keepalive w)))
                      (S (nextTimer w)) (stop_keepalive w),
          [ConsoleLog [LStr "WebSocket disconnected:"; LNum code; LStr reason]])
    else (stop_keepalive w,
          [ConsoleLog [LStr "WebSocket disconnected:"; LNum code; LStr reason];
           ConsoleError [LStr "Max reconnection attempts reached"];
           websocketError]).
Proof.
  rewrite handleClose_eq. destruct (code =? 1000); [done|].
  rewrite attemptReconnect_eq, stop_keepalive_this, stop_keepalive_nextTimer. cbn.
  by destruct (_ && _).
Qed.

Lemma step_close (w : World) (sid : nat) (ws : WebSocket) (code : Z) (reason : string) :
  sockets w !! sid = Some ws → readyState ws ≠ CLOSED →
  let w1 := with_sockets (<[sid := {| url := url ws; readyState := CLOSED;
                                      onopen := onopen ws |}]> (sockets w)) w in
  step (WsClose sid code reason) w
  = if code =? 1000
    then (stop_keepalive w1,
          [ConsoleLog [LStr "WebSocket disconnected:"; LNum code; LStr reason]])
    else if (reconnectAttempts (this w) <? maxReconnectAttempts (this w))
            && truthy (userId (this w))
    then (with_timers (<[nextTimer w := reconnect_timer (reconnectTimeout (this w))]>
                         (timers (stop_keepalive w1)))
                      (S (nextTimer w)) (stop_keepalive w1),
          [ConsoleLog [LStr "WebSocket disconnected:"; LNum code; LStr reason]])
    else (stop_keepalive w1,
          [ConsoleLog [LStr "WebSocket disconnected:"; LNum code; LStr reason];
           ConsoleError [LStr "Max reconnection attempts reached"];
           websocketError]).
Proof.
  intros Hws Hst. cbn zeta. unfold step, task. rewrite bind_get_world, Hws. cbn.
  set (w1 := with_sockets _ w).
  assert ((set_readyState sid CLOSED;; handleClose code reason) w
          = handleClose code reason w1) as E.
  { rewrite (bind_normal _ _ _ _ _ _ (set_readyState_Some sid CLOSED w ws Hws)).
    fold w1. by destruct (handleClose code reason w1) as [[r w2] out2]. }
  destruct (readyState ws); try done; rewrite E; apply (handleClose_outcome w1).
Qed.

Lemma armed_by_same_next (w w' : World) :
  nextTimer w' = nextTimer w → armed_by w w' = None.
Proof. intros H. unfold armed_by. rewrite H. case_decide; [lia|done]. Qed.

Lemma armed_by_reconnect (w w' : World) (ms : Z) :
  nextTimer w' = S (nextTimer w) →
  timers w' !! nextTimer w = Some (reconnect_timer ms) →
  armed_by w w' = Some ms.
Proof. intros H1 H2. unfold armed_by. rewrite H1, H2. by case_decide. Qed.

(** What a [close] event that is not the normal closure arms or
    reports. *)
Lemma close_abnormal (w : World) (sid : nat) (ws : WebSocket) (code : Z) (reason : string) :
  sockets w !! sid = Some ws → readyState ws ≠ CLOSED → code ≠ 1000 →
  let r := step (WsClose sid code reason) w in
  if (reconnectAttempts (this w) <? maxReconnectAttempts (this w))
     && truthy (userId (this w))
  then armed_by w r.1 = Some (reconnectTimeout (this w)) ∧ websocketError ∉ r.2
  else armed_by w r.1 = None ∧ websocketError ∈ r.2.
Proof.
  intros Hws Hst Hcode. cbn zeta. rewrite (step_close w sid ws) by done.
  destruct (Z.eqb_spec code 1000) as [|_]; [done|].
  destruct (_ && _); cbn [fst snd].
  - split.
    + apply armed_by_reconnect; cbn; [done|]. apply lookup_insert_eq.
    + unfold websocketError. rewrite list_elem_of_singleton. done.
  - split.
    + apply armed_by_same_next. by rewrite stop_keepalive_nextTimer.
    + set_solver.
Qed.



(** Six failed attempts in a row, whatever the token. *)
Lemma six_failures (tok : option string) (base : string) :
  let evs := [CallConnect "u"; WsClose 0 1006 ""; TimerFire 1;
              WsClose 1 1006 ""; TimerFire 2; WsClose 2 1006 ""] in
  let more := [TimerFire 3; WsClose 3 1006 ""; TimerFire 4;
               WsClose 4 1006 ""; TimerFire 5] in
  delays evs (init tok base) = [1000; 2000; 4000]
  ∧ delays (evs ++ more ++ [WsClose 5 1006 ""]) (init tok base)
    = [1000; 2000; 4000; 8000; 16000]
  ∧ reconnectAttempts (this (run (evs ++ more) (init tok base)).1) = 5
  ∧ websocketError ∈ (step (WsClose 5 1006 "") (run (evs ++ more) (init tok base)).1).2.
Proof.
  cbn zeta.
  destruct tok as [[|c s]|]; (split_and!; [vm_compute; reflexivity..|]).
  all: vm_compute; set_solver.
Qed.

(** C5, the claim as it stands is false: [attemptReconnect] asks for a
    retained user id besides a counter below the limit.  After
    [connect("")] the retained id is the empty string, which is falsy:
    the first failure, at attempt index 0, arms no delay at all and the
    terminal error is reported at once. *)
Lemma empty_identity_arms_no_delay :
  let w1 := (step (CallConnect "") (init None "wss://host")).1 in
  let r := step (WsClose 0 1006 "") w1 in
  reconnectAttempts (this w1) = 0
  ∧ userId (this w1) = Some ""
  ∧ armed_by w1 r.1 = None
  ∧ ¬ reconnect_pending r.1
  ∧ r.2 = [ConsoleLog [LStr "WebSocket disconnected:"; LNum 1006; LStr ""];
           ConsoleError [LStr "Max reconnection attempts reached"];
           websocketError].
Proof.
  cbn zeta. split_and!; try (vm_compute; reflexivity).
  intros (tid & t & Ht & _). revert Ht.
  assert (timers (step (WsClose 0 1006 "")
                    (step (CallConnect "") (init None "wss://host")).1).1 = ∅)
    as -> by (vm_compute; reflexivity).
  by rewrite lookup_empty.
Qed.

(** C5, amended.  When a transport closes with a code other than 1000
    in a reachable state whose attempt counter is [k]: if [k < 5] and a
    non-empty user id is retained, exactly the reconnect timeout of
    [1000 * 2 ^ k] ms is armed and no error is reported; once [k] has
    reached 5, or when the retained user id is empty, no timeout is
    armed and the terminal error [app/websocketError] is dispatched
    instead.  The delay never decreases as the counter grows.  Three
    failed attempts in a row arm 1000, 2000, 4000 ms, and six arm 1000,
    2000, 4000, 8000, 16000 ms and then report the error. *)
Theorem reconnect_delay_doubles (w : World) (sid : nat) (ws : WebSocket)
    (code : Z) (reason : string) :
  reachable w → sockets w !! sid = Some ws → readyState ws ≠ CLOSED →
  code ≠ 1000 →
  let k := reconnectAttempts (this w) in
  let r := step (WsClose sid code reason) w in
  (if (k <? 5) && truthy (userId (this w))
   then armed_by w r.1 = Some (1000 * 2 ^ k) ∧ websocketError ∉ r.2
   else armed_by w r.1 = None ∧ websocketError ∈ r.2)
  ∧ (∀ w', reachable w' → k ≤ reconnectAttempts (this w') →
       reconnectTimeout (this w) ≤ reconnectTimeout (this w'))
  ∧ (∀ tok base,
       delays [CallConnect "u"; WsClose 0 1006 ""; TimerFire 1;
               WsClose 1 1006 ""; TimerFire 2; WsClose 2 1006 ""]
              (init tok base)
       = [1000; 2000; 4000])
  ∧ (∀ tok base,
       let six := [CallConnect "u"; WsClose 0 1006 ""; TimerFire 1;
                   WsClose 1 1006 ""; TimerFire 2; WsClose 2 1006 "";
                   TimerFire 3; WsClose 3 1006 ""; TimerFire 4;
                   WsClose 4 1006 ""; TimerFire 5; WsClose 5 1006 ""] in
       delays six (init tok base) = [1000; 2000; 4000; 8000; 16000]
       ∧ websocketError ∈ (run six (init tok base)).2).
Proof.
  intros Hreach Hws Hst Hcode. cbn zeta.
  destruct (reachable_backoff w Hreach) as (Hmax & Hpos & Hto).
  split_and!.
  - pose proof (close_abnormal w sid ws code reason Hws Hst Hcode) as H.
    cbn zeta in H. by rewrite Hmax, Hto in H.
  - intros w' Hreach' Hle.
    destruct (reachable_backoff w' Hreach') as (_ & Hpos' & Hto').
    rewrite Hto, Hto'.
    apply Z.mul_le_mono_nonneg_l; [lia|].
    apply Z.pow_le_mono_r; lia.
  - intros tok base. apply (six_failures tok base).
  - intros tok base. split; [apply (six_failures tok base)|].
    destruct tok as [[|c s]|]; vm_compute; set_solver.
Qed.

Lemma reconnect_delay_doubles_witness :
  let w := (run [CallConnect "u"; WsClose 0 1006 ""; TimerFire 1;
                 WsClose 1 1006 ""; TimerFire 2] (init None "wss://host")).1 in
  armed_by w (step (WsClose 2 1006 "") w).1 = Some (1000 * 2 ^ 2).
Proof.
  cbn zeta.
  refine (proj1 (proj1 (reconnect_delay_doubles
    (run [CallConnect "u"; WsClose 0 1006 ""; TimerFire 1;
          WsClose 1 1006 ""; TimerFire 2] (init None "wss://host")).1
    2%nat {| url := "wss://host/ws/u"; readyState := CONNECTING;
             onopen := Some BoundHandleOpen |}
    1006 ""
    (reachable_run _ _ (reachable_init None "wss://host")) _ _ _))).
  - vm_compute; reflexivity.
  - discriminate.
  - discriminate.
Defined.




(** ** [connect] while open *)

(** C7, the claim as it stands is false: on a connection that is open
    for the user [alice], [connect("bob")] does nothing at all: the old
    socket is neither closed nor replaced, the retained user id is still
    [alice], and no new socket is constructed. *)
Lemma connect_other_identity_is_ignored :
  let w0 := (run [CallConnect "alice"; WsOpen 0] (init None "wss://host")).1 in
  step (CallConnect "bob") w0 = (w0, [])
  ∧ userId (this w0) = Some "alice"
  ∧ sockets w0 = [ {| url := "wss://host/ws/alice"; readyState := OPEN;
                      onopen := Some BoundHandleOpen |} ].
Proof.
  cbn zeta. split_and!; [|vm_compute; reflexivity..].
  apply step_normal, connect_open. vm_compute; reflexivity.
Qed.

(** C7, amended.  [connect(identity)] when the connection is already
    open is a no-op whatever the identity: with another identity too the
    world is left exactly as it was (no teardown, no new socket, the
    retained user id unchanged) and nothing is written. *)
Theorem connect_while_open_is_noop (w : World) (u : string) :
  socket_is_open w = true → step (CallConnect u) w = (w, []).
Proof. intros H. by apply step_normal, connect_open. Qed.

Lemma connect_while_open_is_noop_witness :
  step (CallConnect "alice")
       (run [CallConnect "alice"; WsOpen 0] (init None "wss://host")).1
  = ((run [CallConnect "alice"; WsOpen 0] (init None "wss://host")).1, []).
Proof.
  apply (connect_while_open_is_noop
           (run [CallConnect "alice"; WsOpen 0] (init None "wss://host")).1 "alice").
  vm_compute; reflexivity.
Defined.

(** ** [send] *)

(** C8.  [send(data)] while the current socket is not open (there is
    none, or it is connecting, closing or closed) writes nothing to any
    transport, reports the failure on the spot with [console.error] and
    raises nothing, and leaves the world exactly as it was: nothing is
    queued, so whatever happens next, a reconnection included, happens
    as if [send] had not been called. *)
Theorem send_while_not_open (w : World) (data : JValue) :
  socket_is_open w = false →
  send data w = (Normal (), w, [ConsoleError [LStr "WebSocket is not connected"]])
  ∧ step (CallSend data) w = (w, [ConsoleError [LStr "WebSocket is not connected"]])
  ∧ filter is_transport_write (step (CallSend data) w).2 = []
  ∧ ∀ evs, run evs (step (CallSend data) w).1 = run evs w.
Proof.
  intros H.
  assert (step (CallSend data) w
          = (w, [ConsoleError [LStr "WebSocket is not connected"]])) as E
    by (by apply step_normal, send_not_open).
  rewrite E. split_and!; try done. by apply send_not_open.
Qed.

Lemma send_while_not_open_witness :
  step (CallSend ping_frame)
       (run [CallConnect "u"; WsClose 0 1006 ""] (init None "wss://host")).1
  = ((run [CallConnect "u"; WsClose 0 1006 ""] (init None "wss://host")).1,
     [ConsoleError [LStr "WebSocket is not connected"]]).
Proof.
  refine (proj1 (proj2 (send_while_not_open
    (run [CallConnect "u"; WsClose 0 1006 ""] (init None "wss://host")).1
    ping_frame _))).
  vm_compute; reflexivity.
Defined.

(** ** Inbound messages *)

Lemma registered_cases (t : string) :
  ¬ registered t →
  String.eqb t "pong" = false ∧ String.eqb t "chat_message" = false
  ∧ String.eqb t "goal_update" = false
  ∧ String.eqb t "transaction_update" = false
  ∧ String.eqb t "post_update" = false.
Proof.
  intros H. unfold registered, sink_registry in H. cbn in H.
  split_and!; apply String.eqb_neq; intros ->; apply H; set_solver.
Qed.

(** A message of a registered type reaches its sink: [pong] the empty
    one, the four others the store. *)
Lemma registered_message_routed (w : World) (members : list (string * JValue))
    (t : string) (action : option string) :
  own_property "type" members = Some (JStr t) →
  (t, action) ∈ sink_registry →
  handleMessage (Some (JObj members)) w
  = (Normal (), w,
     match action with
     | Some a => [StoreDispatch a (own_property "data" members)]
     | None => []
     end).
Proof.
  intros Hty Hin. unfold handleMessage, try_catch.
  cbn [JSON_parse lift]. rewrite bind_ret. cbn [member_access lift].
  rewrite bind_ret, Hty.
  unfold sink_registry in Hin.
  repeat (apply elem_of_cons in Hin as [E|Hin];
          [injection E as E1 E2; subst t action; reflexivity|]).
  by apply elem_of_nil in Hin.
Qed.

(** What [handleMessage] does with a message it cannot route. *)
Lemma handleMessage_unroutable (w : World) (data : option JValue) :
  unroutable data →
  ∃ diag, is_diagnostic diag ∧ handleMessage data w = (Normal (), w, [diag]).
Proof.
  intros H. unfold handleMessage, try_catch.
  destruct H as [| |v Hty|v ty Hty Hns|v t Hty Hnr].
  - eexists. split; [left; eauto|reflexivity].
  - eexists. split; [left; eauto|reflexivity].
  - eexists. split; [right; eauto|].
    cbn [JSON_parse lift]. rewrite bind_ret, Hty. reflexivity.
  - eexists. split; [right; eauto|].
    cbn [JSON_parse lift]. rewrite bind_ret, Hty. cbn [lift]. rewrite bind_ret.
    destruct ty; try reflexivity. by destruct (Hns s).
  - eexists. split; [right; eauto|].
    cbn [JSON_parse lift]. rewrite bind_ret, Hty. cbn [lift]. rewrite bind_ret.
    destruct (registered_cases t Hnr) as (-> & -> & -> & -> & ->). reflexivity.
Qed.

(** C9.  An inbound message that is not JSON, has no [type], or whose
    [type] is not one of the registered types makes [handleMessage]
    write exactly one diagnostic to the console: no sink is invoked,
    nothing is raised, and the world (socket, timers, counters) is left
    exactly as it was.  The same holds of the whole task when such a
    message arrives on an open transport. *)
Theorem unroutable_message_dropped (w : World) (sid : nat) (data : option JValue) :
  unroutable data →
  ∃ diag,
    is_diagnostic diag
    ∧ is_dispatch diag = false
    ∧ handleMessage data w = (Normal (), w, [diag])
    ∧ (readyState <$> sockets w !! sid = Some OPEN →
       step (WsMessage sid data) w = (w, [diag])).
Proof.
  intros H. destruct (handleMessage_unroutable w data H) as (diag & Hd & E).
  exists diag. split_and!; try done.
  - by destruct Hd as [[x ->]|[ty ->]].
  - intros Hopen. apply step_normal. unfold task.
    by rewrite bind_get_world, Hopen.
Qed.

Lemma unknown_xyz_not_registered : ¬ registered "unknown-xyz".
Proof.
  unfold registered, sink_registry. cbn. intros H.
  repeat (apply elem_of_cons in H as [H|H]; [discriminate|]).
  by apply elem_of_nil in H.
Qed.

Lemma unroutable_message_dropped_witness :
  ∃ diag,
    is_diagnostic diag
    ∧ is_dispatch diag = false
    ∧ handleMessage (Some (JObj [("type", JStr "unknown-xyz")]))
        (init None "wss://host")
      = (Normal (), init None "wss://host", [diag])
    ∧ (readyState <$> sockets (init None "wss://host") !! 0%nat = Some OPEN →
       step (WsMessage 0 (Some (JObj [("type", JStr "unknown-xyz")])))
         (init None "wss://host")
       = (init None "wss://host", [diag])).
Proof.
  apply (unroutable_message_dropped (init None "wss://host") 0%nat
           (Some (JObj [("type", JStr "unknown-xyz")]))).
  apply (unroutable_unknown _ "unknown-xyz"); [reflexivity|].
  exact unknown_xyz_not_registered.
Defined.

(** ** [disconnect] twice *)

(** C10.  [disconnect()] never raises; with no socket and no keepalive
    interval it changes nothing and writes nothing; and a second
    [disconnect()] right after a first changes nothing and writes
    nothing, so that two calls leave the client in the state one call
    leaves it in. *)
Theorem disconnect_idempotent (w : World) :
  (disconnect w).1.1 = Normal ()
  ∧ (socket (this w) = None → pingInterval (this w) = None →
     step CallDisconnect w = (w, []))
  ∧ step CallDisconnect (step CallDisconnect w).1 = ((step CallDisconnect w).1, [])
  ∧ (run [CallDisconnect; CallDisconnect] w).1 = (run [CallDisconnect] w).1.
Proof.
  assert (∀ w0, socket (this w0) = None → pingInterval (this w0) = None →
            step CallDisconnect w0 = (w0, [])) as Hnone.
  { intros w0 Hs Hp. rewrite step_disconnect.
    unfold close_current, stop_keepalive. rewrite Hs. cbn. by rewrite Hp. }
  assert (step CallDisconnect (step CallDisconnect w).1
          = ((step CallDisconnect w).1, [])) as Htwice.
  { destruct (disconnect_leaves w) as (Hs & Hp & _). by apply Hnone. }
  split_and!.
  - by rewrite disconnect_eq.
  - apply Hnone.
  - exact Htwice.
  - cbn. destruct (step CallDisconnect w) as [w1 out1] eqn:E.
    cbn in Htwice. by rewrite Htwice.
Qed.

Lemma disconnect_idempotent_witness :
  step CallDisconnect (init None "wss://host") = (init None "wss://host", []).
Proof.
  exact (proj1 (proj2 (disconnect_idempotent (init None "wss://host")))
           eq_refl eq_refl).
Defined.

(** * Further properties of the client *)

(** ** Inbound messages, one after the other *)

(** [handleMessage] never raises and never touches the world, and what
    it writes does not depend on the world. *)
Lemma handleMessage_pure (data : option JValue) (w w' : World) :
  handleMessage data w' = (Normal (), w', (handleMessage data w).2).
Proof.
  unfold handleMessage, try_catch.
  destruct data as [v|]; [|reflexivity].
  cbn [JSON_parse lift]. rewrite !bind_ret.
  destruct v as [|b|n|s|l|members]; try reflexivity.
  cbn [member_access lift]. rewrite !bind_ret.
  destruct (own_property "type" members) as [[|b|n|t|l|ms]|]; try reflexivity.
  destruct (String.eqb t "pong"); [reflexivity|].
  destruct (String.eqb t "chat_message"); [reflexivity|].
  destruct (String.eqb t "goal_update"); [reflexivity|].
  destruct (String.eqb t "transaction_update"); [reflexivity|].
  destruct (String.eqb t "post_update"); reflexivity.
Qed.

Lemma handleMessage_at_most_one (data : option JValue) (w : World) :
  (length (handleMessage data w).2 ≤ 1)%nat.
Proof.
  unfold handleMessage, try_catch.
  destruct data as [v|]; [|cbv; lia].
  cbn [JSON_parse lift]. rewrite !bind_ret.
  destruct v as [|b|n|s|l|members]; try (cbv; lia).
  cbn [member_access lift]. rewrite !bind_ret.
  destruct (own_property "type" members) as [[|b|n|t|l|ms]|]; try (cbv; lia).
  destruct (String.eqb t "pong"); [cbv; lia|].
  destruct (String.eqb t "chat_message"); [rewrite bind_ret; cbv; lia|].
  destruct (String.eqb t "goal_update"); [rewrite bind_ret; cbv; lia|].
  destruct (String.eqb t "transaction_update"); [rewrite bind_ret; cbv; lia|].
  destruct (String.eqb t "post_update"); [rewrite bind_ret; cbv; lia|cbv; lia].
Qed.

Lemma step_message_open (w : World) (sid : nat) (data : option JValue) :
  readyState <$> sockets w !! sid = Some OPEN →
  step (WsMessage sid data) w = (w, (handleMessage data w).2).
Proof.
  intros Hopen. apply step_normal. unfold task.
  rewrite bind_get_world, Hopen. apply handleMessage_pure.
Qed.

(** X1.  Messages that arrive on an open transport are handled one by
    one in the order of arrival: what a batch writes is what each of its
    messages writes on its own, in that order; each message writes at
    most one effect, and the client is left as it was. *)
Theorem messages_in_arrival_order (w : World) (sid : nat) (batch : list (option JValue)) :
  readyState <$> sockets w !! sid = Some OPEN →
  run (WsMessage sid <$> batch) w
  = (w, concat ((λ data, (step (WsMessage sid data) w).2) <$> batch))
  ∧ Forall (λ data, (length (step (WsMessage sid data) w).2 ≤ 1)%nat) batch.
Proof.
  intros Hopen. split.
  - induction batch as [|data batch IH]; [reflexivity|].
    cbn. rewrite (step_message_open w sid data Hopen). cbn [fst snd].
    by rewrite IH.
  - apply Forall_forall. intros data _.
    rewrite (step_message_open w sid data Hopen). apply handleMessage_at_most_one.
Qed.

Lemma messages_in_arrival_order_witness :
  (run (WsMessage 0 <$>
          [Some (JObj [("type", JStr "chat_message"); ("data", JStr "A")]);
           Some (JObj [("type", JStr "goal_update"); ("data", JStr "B")]);
           Some (JObj [("type", JStr "chat_message"); ("data", JStr "C")])])
       (run [CallConnect "u"; WsOpen 0] (init None "wss://host")).1).2
  = [StoreDispatch "chat/messageReceived" (Some (JStr "A"));
     StoreDispatch "goals/goalUpdated" (Some (JStr "B"));
     StoreDispatch "chat/messageReceived" (Some (JStr "C"))].
Proof.
  rewrite (proj1 (messages_in_arrival_order
    (run [CallConnect "u"; WsOpen 0] (init None "wss://host")).1 0%nat
    [Some (JObj [("type", JStr "chat_message"); ("data", JStr "A")]);
     Some (JObj [("type", JStr "goal_update"); ("data", JStr "B")]);
     Some (JObj [("type", JStr "chat_message"); ("data", JStr "C")])]
    ltac:(vm_compute; reflexivity))).
  vm_compute. reflexivity.
Defined.

(** X2.  A message of one of the four routed types that arrives on an
    open transport is dispatched to the store exactly once, under the
    action type of its case and with the message's [data] as payload
    ([undefined] when it has none); a [pong] is swallowed.  The client is
    left as it was. *)
Theorem registered_message_dispatched (w : World) (sid : nat)
    (members : list (string * JValue)) (t : string) (action : option string) :
  readyState <$> sockets w !! sid = Some OPEN →
  own_property "type" members = Some (JStr t) →
  (t, action) ∈ sink_registry →
  step (WsMessage sid (Some (JObj members))) w
  = (w, match action with
        | Some a => [StoreDispatch a (own_property "data" members)]
        | None => []
        end).
Proof.
  intros Hopen Hty Hin. apply step_normal. unfold task.
  rewrite bind_get_world, Hopen.
  exact (registered_message_routed w members t action Hty Hin).
Qed.

Lemma registered_message_dispatched_witness :
  let w0 := (run [CallConnect "u"; WsOpen 0] (init None "wss://host")).1 in
  step (WsMessage 0 (Some (JObj [("type", JStr "post_update")]))) w0
  = (w0, [StoreDispatch "community/postUpdated" None]).
Proof.
  cbn zeta.
  apply (registered_message_dispatched _ 0%nat [("type", JStr "post_update")]
           "post_update" (Some "community/postUpdated")).
  - vm_compute; reflexivity.
  - reflexivity.
  - unfold sink_registry. set_solver.
Defined.

(** ** The token, the identity and the first frame *)

Lemma step_store_token (tok : option string) (w : World) :
  step (StoreToken tok) w = (with_token tok w, []).
Proof. reflexivity. Qed.

Lemma step_open_send_authorization (w : World) (sid : nat) (ws : WebSocket) (tok : string) :
  sockets w !! sid = Some ws → readyState ws = CONNECTING →
  onopen ws = Some (SendAuthorization tok) → socket (this w) = Some sid →
  step (WsOpen sid) w
  = (with_sockets (<[sid := {| url := url ws; readyState := OPEN;
                               onopen := onopen ws |}]> (sockets w)) w,
     [TransportSend sid (authorization_frame tok)]).
Proof.
  intros Hws Hst Hh Hs. apply step_normal.
  unfold task. rewrite bind_get_world, Hws, Hst. cbn [ReadyState_eqb].
  rewrite (bind_normal _ _ _ _ _ _ (set_readyState_Some sid OPEN w ws Hws)).
  rewrite Hh. unfold send_authorization. rewrite bind_get_this.
  cbn [fst snd with_sockets this]. rewrite Hs.
  unfold WebSocket_send. rewrite bind_get_world. cbn [sockets with_sockets].
  rewrite list_lookup_insert_eq by (by eapply lookup_lt_Some).
  reflexivity.
Qed.

(** The two worlds [connect] and then the [open] of the new socket lead
    to, and what the [open] writes. *)
Lemma open_after_connect_step (u : option string) (w : World) :
  let sid := length (sockets w) in
  ∃ w2,
    step (WsOpen sid) (connected u w)
    = (w2, if truthy (token w)
           then [TransportSend sid (authorization_frame (template (token w)))]
           else [ConsoleLog [LStr "WebSocket connected"]])
    ∧ socket (this w2) = Some sid
    ∧ readyState <$> sockets w2 !! sid = Some OPEN.
Proof.
  cbn zeta. unfold step. rewrite open_after_connect.
  destruct (truthy (token w)).
  - unfold send_authorization. rewrite bind_get_this.
    cbn [with_sockets this connected socket].
    unfold WebSocket_send. rewrite bind_get_world.
    cbn [sockets with_sockets]. rewrite lookup_snoc. cbn.
    eexists. split; [reflexivity|]. cbn. by rewrite lookup_snoc.
  - rewrite handleOpen_eq. eexists. split; [reflexivity|].
    cbn. by rewrite lookup_snoc.
Qed.

(** X3.  The token of the handshake is the one the store holds when
    [connect] is called: whatever the store holds when the transport
    opens, the frame written carries the token read by [connect]; and
    when [connect] found no token, a token that arrives before the
    transport opens is not sent. *)
Theorem handshake_token_fixed_at_connect (w : World) (u : string) (later : option string) :
  socket_is_open w = false →
  let sid := length (sockets w) in
  (run [CallConnect u; StoreToken later; WsOpen sid] w).2
  = if truthy (token w)
    then [TransportSend sid (authorization_frame (template (token w)))]
    else [ConsoleLog [LStr "WebSocket connected"]].
Proof.
  intros Hopen. cbn zeta. cbn [run].
  rewrite (step_connect_not_open u w Hopen), step_store_token.
  set (w1 := with_token later (connected (Some u) w)).
  destruct (truthy (token w)) eqn:Htok.
  - rewrite (step_open_send_authorization w1 (length (sockets w))
               {| url := (REACT_APP_WS_URL w ++ "/ws/" ++ u)%string;
                  readyState := CONNECTING;
                  onopen := Some (SendAuthorization (template (token w))) |}
               (template (token w))); [reflexivity|..|reflexivity|reflexivity|reflexivity].
    subst w1. cbn [with_token connected sockets template]. by rewrite Htok, lookup_snoc.
  - rewrite (step_open_handleOpen w1 (length (sockets w))
               {| url := (REACT_APP_WS_URL w ++ "/ws/" ++ u)%string;
                  readyState := CONNECTING;
                  onopen := Some BoundHandleOpen |}); [reflexivity|..|reflexivity|reflexivity].
    subst w1. cbn [with_token connected sockets template]. by rewrite Htok, lookup_snoc.
Qed.

Lemma handshake_token_fixed_at_connect_witness :
  (run [CallConnect "u"; StoreToken (Some "new"); WsOpen 0] (init (Some "old") "wss://host")).2
  = [TransportSend 0 (authorization_frame "old")].
Proof.
  exact (handshake_token_fixed_at_connect (init (Some "old") "wss://host") "u"
           (Some "new") eq_refl).
Defined.

(** X4.  After [connect] and the [open] of the socket it made, the
    connection is open and [send(data)] writes [data] to that socket and
    to no other, whether or not there is a token. *)
Theorem send_after_open (w : World) (u : string) (data : JValue) :
  socket_is_open w = false →
  let sid := length (sockets w) in
  let w2 := (run [CallConnect u; WsOpen sid] w).1 in
  socket_is_open w2 = true
  ∧ step (CallSend data) w2 = (w2, [TransportSend sid data]).
Proof.
  intros Hopen. cbn zeta. cbn [run].
  rewrite (step_connect_not_open u w Hopen).
  destruct (open_after_connect_step (Some u) w) as (w2 & E & Hs & Hr).
  cbn zeta in E. rewrite E. cbn [fst snd]. split.
  - apply socket_is_open_true. eauto.
  - apply step_normal. by apply send_open.
Qed.

Lemma send_after_open_witness :
  step (CallSend ping_frame)
    (run [CallConnect "u"; WsOpen 0] (init (Some "secret") "wss://host")).1
  = ((run [CallConnect "u"; WsOpen 0] (init (Some "secret") "wss://host")).1,
     [TransportSend 0 ping_frame]).
Proof.
  exact (proj2 (send_after_open (init (Some "secret") "wss://host") "u" ping_frame
                  eq_refl)).
Defined.

(** The reconnect callback while the current socket is open: [connect]
    returns at once, the two counters advance all the same. *)
Lemma reconnect_callback_open (w : World) :
  socket_is_open w = true →
  reconnect_callback w =
  (Normal (),
   with_this {| socket := socket (this w);
                reconnectAttempts := reconnectAttempts (this w) + 1;
                maxReconnectAttempts := maxReconnectAttempts (this w);
                reconnectTimeout := reconnectTimeout (this w) * 2;
                pingInterval := pingInterval (this w);
                userId := userId (this w) |} w,
   [ConsoleLog [LStr "Attempting to reconnect... (";
                LNum (reconnectAttempts (this w) + 1); LStr "/";
                LNum (maxReconnectAttempts (this w)); LStr ")"]]).
Proof.
  intros H. unfold reconnect_callback. rewrite bind_get_this.
  cbv [assign_reconnectAttempts assign_reconnectTimeout]. unmonad.
  rewrite (connect_open _ _ H). reflexivity.
Qed.




(** X6.  With the empty string as identity there is no retry: the first
    [close] that is not the normal closure arms no timeout and reports
    the terminal error at once, whatever the attempt counter. *)
Theorem empty_user_id_never_reconnects (w : World) (code : Z) (reason : string) :
  socket_is_open w = false → code ≠ 1000 →
  let sid := length (sockets w) in
  let w1 := (step (CallConnect "") w).1 in
  let r := step (WsClose sid code reason) w1 in
  armed_by w1 r.1 = None ∧ websocketError ∈ r.2 ∧ ¬ socket_is_open r.1 = true.
Proof.
  intros Hopen Hcode. cbn zeta.
  rewrite (step_connect_not_open "" w Hopen). cbn [fst].
  pose proof (close_abnormal (connected (Some "") w) (length (sockets w))
                {| url := (REACT_APP_WS_URL w ++ "/ws/" ++ "")%string;
                   readyState := CONNECTING;
                   onopen := Some (if truthy (token w)
                                   then SendAuthorization (template (token w))
                                   else BoundHandleOpen) |}
                code reason (lookup_snoc _ _) ltac:(discriminate) Hcode) as H.
  cbn zeta in H. cbn [connected this userId truthy] in H.
  rewrite andb_false_r in H. destruct H as [H1 H2].
  split_and!; [done..|].
  erewrite step_close; [|apply lookup_snoc|discriminate].
  destruct (Z.eqb_spec code 1000) as [|_]; [done|].
  cbn [connected this userId truthy]. rewrite andb_false_r. cbn [fst].
  unfold socket_is_open. rewrite stop_keepalive_this, stop_keepalive_sockets.
  cbn. rewrite insert_snoc, lookup_snoc. cbn. done.
Qed.

Lemma empty_user_id_never_reconnects_witness :
  websocketError
  ∈ (step (WsClose 0 1006 "") (step (CallConnect "") (init None "wss://host")).1).2.
Proof.
  exact (proj1 (proj2 (empty_user_id_never_reconnects (init None "wss://host")
                         1006 "" eq_refl ltac:(discriminate)))).
Defined.

(** ** Superseded sockets and stray timers *)

Lemma step_close_this (w : World) (sid : nat) (ws : WebSocket) (code : Z) (reason : string) :
  sockets w !! sid = Some ws → readyState ws ≠ CLOSED →
  let w' := (step (WsClose sid code reason) w).1 in
  this w' = {| socket := socket (this w);
               reconnectAttempts := reconnectAttempts (this w);
               maxReconnectAttempts := maxReconnectAttempts (this w);
               reconnectTimeout := reconnectTimeout (this w);
               pingInterval := None;
               userId := userId (this w) |}
  ∧ sockets w' = <[sid := {| url := url ws; readyState := CLOSED;
                             onopen := onopen ws |}]> (sockets w)
  ∧ ∀ tid, tid ≠ nextTimer w →
      timers w' !! tid
      = match pingInterval (this w) with
        | Some p => delete p (timers w) !! tid
        | None => timers w !! tid
        end.
Proof.
  intros Hws Hst. cbn zeta. rewrite (step_close w sid ws) by done.
  set (w1 := with_sockets _ w).
  assert (this (stop_keepalive w1) = _) as Hthis by exact (stop_keepalive_this w1).
  assert (sockets (stop_keepalive w1) = _) as Hsock by exact (stop_keepalive_sockets w1).
  assert (timers (stop_keepalive w1) = _) as Htm by exact (stop_keepalive_timers w1).
  cbn in Hthis, Hsock, Htm.
  assert (∀ tid, timers (stop_keepalive w1) !! tid
                 = match pingInterval (this w) with
                   | Some p => delete p (timers w) !! tid
                   | None => timers w !! tid
                   end) as Htm'.
  { intros tid. rewrite Htm. by destruct (pingInterval (this w)). }
  destruct (code =? 1000); [|destruct (_ && _)]; cbn [fst with_timers this sockets timers];
    (split_and!; [done|done|]); intros tid Hne; rewrite ?lookup_insert_ne by done;
    apply Htm'.
Qed.

(** X7.  The handlers of a socket stay bound to the client after the
    socket is superseded: the [close] of a socket that is no longer the
    current one clears the keepalive interval of the current, open
    connection, which stays open and is not pinged any more. *)
Theorem superseded_close_stops_keepalive (w : World) (sid cur p : nat) (ws : WebSocket)
    (code : Z) (reason : string) :
  reachable w → sockets w !! sid = Some ws → readyState ws ≠ CLOSED →
  socket (this w) = Some cur → cur ≠ sid →
  readyState <$> sockets w !! cur = Some OPEN →
  pingInterval (this w) = Some p →
  let w' := (step (WsClose sid code reason) w).1 in
  socket_is_open w' = true ∧ pingInterval (this w') = None ∧ timers w' !! p = None.
Proof.
  intros Hreach Hws Hst Hcur Hne Hopen Hp. cbn zeta.
  destruct (step_close_this w sid ws code reason Hws Hst) as (Hthis & Hsock & Htm).
  cbn zeta in *.
  destruct (reachable_timers_wf w Hreach) as [_ Hwf].
  destruct (Hwf p Hp) as [Hlt _].
  split_and!.
  - apply socket_is_open_true. exists cur. rewrite Hthis, Hsock. cbn.
    split; [done|]. by rewrite list_lookup_insert_ne.
  - by rewrite Hthis.
  - rewrite Htm by lia. rewrite Hp. apply lookup_delete_eq.
Qed.

Lemma superseded_close_stops_keepalive_witness :
  let w := (run [CallConnect "u"; CallConnect "u"; WsOpen 1] (init None "wss://host")).1 in
  socket_is_open (step (WsClose 0 1006 "") w).1 = true
  ∧ pingInterval (this (step (WsClose 0 1006 "") w).1) = None
  ∧ timers (step (WsClose 0 1006 "") w).1 !! 1%nat = None.
Proof.
  cbn zeta.
  apply (superseded_close_stops_keepalive
    (run [CallConnect "u"; CallConnect "u"; WsOpen 1] (init None "wss://host")).1
    0%nat 1%nat 1%nat
    {| url := "wss://host/ws/u"; readyState := CONNECTING;
       onopen := Some BoundHandleOpen |} 1006 "").
  - apply reachable_run, reachable_init.
  - vm_compute; reflexivity.
  - discriminate.
  - vm_compute; reflexivity.
  - discriminate.
  - vm_compute; reflexivity.
  - vm_compute; reflexivity.
Defined.

(** X8.  [handleOpen] arms a new keepalive interval without clearing
    the one [pingInterval] names: the older interval stays armed, can no
    longer be reached through [pingInterval], survives [disconnect()],
    and from then on each time it fires it only reports that the socket
    is not connected. *)
Theorem keepalive_interval_leaks (w : World) (sid p : nat) (ws : WebSocket) :
  reachable w → pingInterval (this w) = Some p →
  timers w !! p = Some keepalive_timer →
  sockets w !! sid = Some ws → readyState ws = CONNECTING →
  onopen ws = Some BoundHandleOpen →
  let w1 := (step (WsOpen sid) w).1 in
  let w2 := (step CallDisconnect w1).1 in
  pingInterval (this w1) = Some (nextTimer w)
  ∧ timers w1 !! p = Some keepalive_timer
  ∧ pingInterval (this w2) = None
  ∧ timers w2 !! nextTimer w = None
  ∧ timers w2 !! p = Some keepalive_timer
  ∧ step (TimerFire p) w2 = (w2, [ConsoleError [LStr "WebSocket is not connected"]]).
Proof.
  intros Hreach Hp Ht Hws Hst Hh. cbn zeta.
  destruct (reachable_timers_wf w Hreach) as [_ Hwf].
  destruct (Hwf p Hp) as [Hlt _].
  rewrite (step_open_handleOpen w sid ws Hws Hst Hh). cbn [fst].
  rewrite handleOpen_eq. cbn [fst snd].
  set (w1 := {| this := _ |}).
  destruct (disconnect_leaves w1) as (Hs & Hping & _ & _ & _ & Htm).
  cbn zeta in *. cbn [w1 this pingInterval timers with_sockets nextTimer] in Htm.
  assert (timers (step CallDisconnect w1).1 !! p = Some keepalive_timer) as Hp2.
  { rewrite Htm, lookup_delete_ne, lookup_insert_ne by lia. done. }
  split_and!.
  - reflexivity.
  - cbn. by rewrite lookup_insert_ne by lia.
  - done.
  - rewrite Htm. apply lookup_delete_eq.
  - done.
  - apply step_normal. unfold task. rewrite bind_get_world, Hp2.
    cbn [kind callback keepalive_timer]. rewrite bind_ret.
    apply send_not_open. unfold socket_is_open. by rewrite Hs.
Qed.

Lemma keepalive_interval_leaks_witness :
  let w := (run [CallConnect "u"; CallConnect "u"; WsOpen 0] (init None "wss://host")).1 in
  timers (step CallDisconnect (step (WsOpen 1) w).1).1 !! 1%nat = Some keepalive_timer.
Proof.
  cbn zeta.
  refine (proj1 (proj2 (proj2 (proj2 (proj2 (keepalive_interval_leaks
    (run [CallConnect "u"; CallConnect "u"; WsOpen 0] (init None "wss://host")).1
    1%nat 1%nat
    {| url := "wss://host/ws/u"; readyState := CONNECTING;
       onopen := Some BoundHandleOpen |} _ _ _ _ _ _)))))).
  - apply reachable_run, reachable_init.
  - vm_compute; reflexivity.
  - vm_compute; reflexivity.
  - vm_compute; reflexivity.
  - reflexivity.
  - reflexivity.
Defined.

(** X9.  A reconnect timeout that fires while the current socket is
    open constructs nothing, since [connect] returns at once, but it
    still counts an attempt: the counter goes up by one and the delay
    doubles, the open connection being left as it is. *)
Theorem late_reconnect_callback_counts (w : World) (tid : nat) (t : Timer) :
  socket_is_open w = true → timers w !! tid = Some t →
  callback t = ReconnectCallback →
  let w' := (step (TimerFire tid) w).1 in
  sockets w' = sockets w
  ∧ socket (this w') = socket (this w)
  ∧ reconnectAttempts (this w') = reconnectAttempts (this w) + 1
  ∧ reconnectTimeout (this w') = reconnectTimeout (this w) * 2.
Proof.
  intros Hopen Ht Hc. cbn zeta. rewrite step_world.
  unfold task. rewrite bind_get_world, Ht, Hc.
  destruct (kind t).
  - rewrite bind_ret, (reconnect_callback_open w Hopen). done.
  - rewrite (bind_normal _ _ w (with_timers (delete tid (timers w)) (nextTimer w) w) () [])
      by reflexivity.
    cbn [fst snd]. rewrite reconnect_callback_open by done. done.
Qed.

Lemma late_reconnect_callback_counts_witness :
  let w := (run [CallConnect "u"; WsClose 0 1006 ""; CallConnect "u"; WsOpen 1]
              (init None "wss://host")).1 in
  reconnectAttempts (this w) = 0
  ∧ reconnectAttempts (this (step (TimerFire 1) w).1) = 0 + 1.
Proof.
  cbn zeta. split; [vm_compute; reflexivity|].
  refine (proj1 (proj2 (proj2 (late_reconnect_callback_counts
    (run [CallConnect "u"; WsClose 0 1006 ""; CallConnect "u"; WsOpen 1]
       (init None "wss://host")).1
    1%nat (reconnect_timer 1000) _ _ _)))).
  - vm_compute; reflexivity.
  - vm_compute; reflexivity.
  - reflexivity.
Defined.

(** X10.  [disconnect()] on a socket that is still connecting does not
    suppress reconnection: the socket is told to close with code 1000 and
    forgotten, but when the transport then reports its closure with
    another code (the browser reports 1006 for a connection that never
    opened), [handleClose] arms a reconnect timeout as for any failure. *)
Theorem disconnect_while_connecting_reconnects (w : World) (sid : nat) (ws : WebSocket)
    (code : Z) (reason : string) :
  socket (this w) = Some sid → sockets w !! sid = Some ws →
  readyState ws = CONNECTING → code ≠ 1000 →
  reconnectAttempts (this w) < maxReconnectAttempts (this w) →
  truthy (userId (this w)) = true →
  let r1 := step CallDisconnect w in
  let r2 := step (WsClose sid code reason) r1.1 in
  r1.2 = [TransportClose sid 1000 "User disconnected"]
  ∧ socket (this r1.1) = None
  ∧ armed_by r1.1 r2.1 = Some (reconnectTimeout (this w))
  ∧ reconnect_pending r2.1.
Proof.
  intros Hs Hws Hst Hcode Hlt Hu. cbn zeta.
  rewrite step_disconnect.
  assert (close_current w
          = (forget_socket
               (with_sockets (<[sid := {| url := url ws; readyState := CLOSING;
                                          onopen := onopen ws |}]> (sockets w)) w),
             [TransportClose sid 1000 "User disconnected"])) as E.
  { unfold close_current. by rewrite Hs, Hws, Hst. }
  rewrite E. cbn [fst snd].
  set (w1 := stop_keepalive _).
  assert (this w1 = {| socket := None;
                       reconnectAttempts := reconnectAttempts (this w);
                       maxReconnectAttempts := maxReconnectAttempts (this w);
                       reconnectTimeout := reconnectTimeout (this w);
                       pingInterval := None;
                       userId := userId (this w) |}) as Hthis
    by (subst w1; by rewrite stop_keepalive_this).
  assert (sockets w1 !! sid
          = Some {| url := url ws; readyState := CLOSING; onopen := onopen ws |}) as Hws1.
  { subst w1. rewrite stop_keepalive_sockets. cbn.
    apply list_lookup_insert_eq. by eapply lookup_lt_Some. }
  pose proof (close_abnormal w1 sid _ code reason Hws1 ltac:(discriminate) Hcode) as H.
  cbn zeta in H. rewrite Hthis in H. cbn [reconnectAttempts maxReconnectAttempts
    userId reconnectTimeout] in H.
  rewrite Hu, (proj2 (Z.ltb_lt _ _) Hlt) in H. cbn in H. destruct H as [H _].
  split_and!; [done|by rewrite Hthis|done|].
  unfold armed_by in H. case_decide; [|done].
  destruct (timers (step (WsClose sid code reason) w1).1 !! nextTimer w1) as [t|] eqn:Ht;
    [|done].
  exists (nextTimer w1), t. split; [done|]. by destruct (callback t).
Qed.

Lemma disconnect_while_connecting_reconnects_witness :
  let w := (step (CallConnect "u") (init None "wss://host")).1 in
  armed_by (step CallDisconnect w).1
           (step (WsClose 0 1006 "") (step CallDisconnect w).1).1
  = Some 1000.
Proof.
  cbn zeta.
  refine (proj1 (proj2 (proj2 (disconnect_while_connecting_reconnects
    (step (CallConnect "u") (init None "wss://host")).1 0%nat
    {| url := "wss://host/ws/u"; readyState := CONNECTING;
       onopen := Some BoundHandleOpen |} 1006 "" _ _ _ _ _ _)))).
  - reflexivity.
  - reflexivity.
  - reflexivity.
  - discriminate.
  - reflexivity.
  - reflexivity.
Defined.

(** ** Transports are never reused *)

Lemma connect_keeps_socket (u : option string) (w : World) (sid : nat) (ws : WebSocket) :
  sockets w !! sid = Some ws → sockets (connect u w).1.2 !! sid = Some ws.
Proof.
  intros Hws. destruct (socket_is_open w) eqn:H.
  - by rewrite connect_open.
  - rewrite connect_not_open by done. cbn. by apply lookup_app_l_Some.
Qed.

Lemma reconnect_callback_keeps_socket (w : World) (sid : nat) (ws : WebSocket) :
  sockets w !! sid = Some ws → sockets (reconnect_callback w).1.2 !! sid = Some ws.
Proof.
  intros Hws. destruct (socket_is_open w) eqn:H.
  - by rewrite reconnect_callback_open.
  - rewrite reconnect_callback_not_open by done. cbn. by apply lookup_app_l_Some.
Qed.

(** X11.  A transport that has closed is final: whatever task follows
    (a call of [connect] or [disconnect], an event of this or another
    transport, a timer), the closed socket is still in place, still
    CLOSED, with its URL and handler untouched.  A reconnection never
    revives it: [connect] constructs a new socket next to it. *)
Theorem closed_socket_stays_closed (w : World) (ev : Event) (sid : nat) (ws : WebSocket) :
  sockets w !! sid = Some ws → readyState ws = CLOSED →
  sockets (step ev w).1 !! sid = Some ws.
Proof.
  intros Hws Hst. rewrite step_world.
  destruct ev as [u|d| |tok|sid'|sid' d|sid'|sid' code reason|tid].
  - by apply connect_keeps_socket.
  - rewrite <- Hws.
    enough (keeps (λ w, sockets w !! sid) (send d)) as K by apply K.
    unfold send, send_any. keeps.
  - cbn [task]. rewrite disconnect_eq. cbn [fst snd].
    rewrite stop_keepalive_sockets. unfold close_current.
    destruct (socket (this w)) as [cur|]; [|done].
    destruct (sockets w !! cur) as [wc|] eqn:Hcur; [|done].
    destruct (readyState wc) eqn:Hrc; cbn; try done.
    all: rewrite list_lookup_insert_ne; [done|]; intros ->; congruence.
  - done.
  - unfold task. rewrite bind_get_world.
    destruct (sockets w !! sid') as [ws'|] eqn:Hws'; [|done].
    destruct (readyState ws') eqn:Hst'; cbn [ReadyState_eqb]; try done.
    rewrite (bind_normal _ _ _ _ _ _ (set_readyState_Some sid' OPEN w ws' Hws')).
    cbn [fst snd]. set (w1 := with_sockets _ w).
    assert (sockets w1 !! sid = Some ws) as H1.
    { subst w1. cbn. rewrite list_lookup_insert_ne; [done|]. intros ->. congruence. }
    rewrite <- H1. destruct (onopen ws') as [[|tok]|]; [reflexivity| |reflexivity].
    enough (keeps (λ w, sockets w !! sid) (send_authorization tok)) as K by apply K.
    unfold send_authorization. keeps.
  - rewrite <- Hws.
    enough (keeps (λ w, sockets w !! sid) (task (WsMessage sid' d))) as K by apply K.
    unfold task. keeps.
  - rewrite <- Hws.
    enough (keeps (λ w, sockets w !! sid) (task (WsError sid'))) as K by apply K.
    unfold task, handleError. keeps.
  - destruct (sockets w !! sid') as [ws'|] eqn:Hws'.
    + assert (readyState ws' = CLOSED ∨ readyState ws' ≠ CLOSED) as [Hc|Hc]
        by (destruct (readyState ws'); auto).
      * unfold task. rewrite bind_get_world, Hws'. cbn. by rewrite Hc.
      * rewrite <- step_world.
        destruct (step_close_this w sid' ws' code reason Hws' Hc) as (_ & -> & _).
        rewrite list_lookup_insert_ne; [done|]. intros ->. congruence.
    + unfold task. rewrite bind_get_world, Hws'. done.
  - unfold task. rewrite bind_get_world.
    destruct (timers w !! tid) as [t|]; [|done].
    assert (∀ w0, sockets w0 !! sid = Some ws →
              sockets (match callback t with
                       | PingCallback => ping_callback
                       | ReconnectCallback => reconnect_callback
                       end w0).1.2 !! sid = Some ws) as K.
    { intros w0 H0. destruct (callback t); [|by apply reconnect_callback_keeps_socket].
      rewrite <- H0.
      enough (keeps (λ w, sockets w !! sid) ping_callback) as K by apply K.
      unfold ping_callback, send. keeps. }
    destruct (kind t).
    + rewrite bind_ret. by apply K.
    + rewrite (bind_normal _ _ w (with_timers (delete tid (timers w)) (nextTimer w) w) () [])
        by reflexivity.
      cbn [fst snd]. by apply K.
Qed.

Lemma closed_socket_stays_closed_witness :
  let w := (run [CallConnect "u"; WsClose 0 1006 ""] (init None "wss://host")).1 in
  sockets (step (TimerFire 1) w).1 !! 0%nat
  = Some {| url := "wss://host/ws/u"; readyState := CLOSED;
            onopen := Some BoundHandleOpen |}.
Proof.
  cbn zeta.
  apply (closed_socket_stays_closed
    (run [CallConnect "u"; WsClose 0 1006 ""] (init None "wss://host")).1
    (TimerFire 1) 0%nat).
  - vm_compute; reflexivity.
  - reflexivity.
Defined.

(** ** The slice of the store *)

Section Emits.
Context {A B : Type} (P : Effect → Prop).

Lemma emits_bind (m : M A) (k : A → M B) :
  emits P m → (∀ a, emits P (k a)) → emits P (m ≫= k).
Proof.
  intros Hm Hk w. specialize (Hm w). unmonad.
  destruct (m w) as [[[a|e] w1] out1]; cbn in *; [|done].
  specialize (Hk a w1). destruct (k a w1) as [[r w2] out2]; cbn in *.
  by apply Forall_app.
Qed.

Lemma emits_try_catch (m : M A) (h : Exn → M A) :
  emits P m → (∀ e, emits P (h e)) → emits P (try_catch m h).
Proof.
  intros Hm Hh w. specialize (Hm w). unfold try_catch.
  destruct (m w) as [[[a|e] w1] out1]; cbn in *; [done|].
  specialize (Hh e w1). destruct (h e w1) as [[r w2] out2]; cbn in *.
  by apply Forall_app.
Qed.

Lemma emits_ret (a : A) : emits P (mret a : M A).
Proof. intros w. constructor. Qed.

Lemma emits_throw (e : Exn) : emits P (throw e : M A).
Proof. intros w. constructor. Qed.

Lemma emits_lift (r : Exn + A) : emits P (lift r).
Proof. destruct r; intros w; constructor. Qed.
End Emits.

Lemma emits_emit (P : Effect → Prop) (e : Effect) : P e → emits P (emit e).
Proof. intros H w. by repeat constructor. Qed.

Lemma emits_get_world (P : Effect → Prop) : emits P get_world.
Proof. intros w. constructor. Qed.

Lemma emits_get_this (P : Effect → Prop) : emits P get_this.
Proof. intros w. constructor. Qed.

Lemma emits_modify (P : Effect → Prop) (f : World → World) : emits P (modify f).
Proof. intros w. constructor. Qed.

Create HintDb emits.
#[local] Hint Resolve emits_ret emits_throw emits_lift emits_get_world emits_get_this
  emits_modify : emits.
#[local] Hint Extern 1 (emits slice_neutral (emit _)) =>
  (apply emits_emit; intros ?; reflexivity) : emits.

Ltac emits :=
  repeat first
    [ solve [auto with emits]
    | apply emits_bind; [|intros ?]
    | apply emits_try_catch; [|intros ?]
    | progress cbv zeta
    | progress unfold handleError, ping_callback, set_token, set_this,
        set_sockets, set_timers
    | case_match ].

(** No effect of the client concerns the slice: what it dispatches goes
    to other slices ([chat], [goals], [finance], [community]) or, for the
    terminal error, under the type [app/websocketError]. *)
Lemma task_slice_neutral (ev : Event) : emits slice_neutral (task ev).
Proof. destruct ev; unfold task; emits. Qed.

Lemma foldl_slice_neutral (out : list Effect) (state : websocketSlice.WebSocketState) :
  Forall slice_neutral out → foldl websocketSlice.reduce_effect state out = state.
Proof.
  intros H. revert state. induction H as [|e out He _ IH]; intros state; [done|].
  cbn. by rewrite He.
Qed.

Lemma connect_checked_open (accepted : bool) (u : option string) (w : World) :
  socket_is_open w = true → connect_checked accepted u w = (Normal (), w, []).
Proof. intros H. unfold connect_checked. rewrite bind_get_world, H. reflexivity. Qed.

(** The world [connect] leaves when the constructor raises: the user id
    is assigned, nothing else has happened. *)
Lemma connect_checked_rejected (u : option string) (w : World) :
  socket_is_open w = false →
  connect_checked false u w
  = (Thrown SyntaxError,
     with_this {| socket := socket (this w);
                  reconnectAttempts := reconnectAttempts (this w);
                  maxReconnectAttempts := maxReconnectAttempts (this w);
                  reconnectTimeout := reconnectTimeout (this w);
                  pingInterval := pingInterval (this w);
                  userId := u |} w,
     []).
Proof. intros H. unfold connect_checked. rewrite bind_get_world, H. reflexivity. Qed.

Lemma connectWebSocket_eq (u : string) (accepted : bool) (w : World) :
  websocketSlice.connectWebSocket u accepted w
  = if socket_is_open w
    then (Normal (), w, [StoreDispatch "websocket/connected" None])
    else if accepted
    then (Normal (), connected (Some u) w, [StoreDispatch "websocket/connected" None])
    else (Thrown TypeError,
          with_this {| socket := socket (this w);
                       reconnectAttempts := reconnectAttempts (this w);
                       maxReconnectAttempts := maxReconnectAttempts (this w);
                       reconnectTimeout := reconnectTimeout (this w);
                       pingInterval := pingInterval (this w);
                       userId := Some u |} w,
          []).
Proof.
  unfold websocketSlice.connectWebSocket, try_catch.
  destruct (socket_is_open w) eqn:H.
  - by rewrite (bind_normal _ _ _ _ _ _ (connect_checked_open accepted (Some u) w H)).
  - destruct accepted.
    + change (connect_checked true (Some u)) with (connect (Some u)).
      by rewrite (bind_normal _ _ _ _ _ _ (connect_not_open (Some u) w H)).
    + unmonad. rewrite (connect_checked_rejected (Some u) w H). reflexivity.
Qed.

(** [send] case by case: the serialiser runs only behind the guard. *)
Lemma send_any_eq (data : Data) (w : World) :
  send_any data w
  = if socket_is_open w then
      match socket (this w), data with
      | Some sid, Json v => (Normal (), w, [TransportSend sid v])
      | Some sid, Unserializable e => (Thrown e, w, [])
      | None, _ => (Normal (), w, [])
      end
    else (Normal (), w, [ConsoleError [LStr "WebSocket is not connected"]]).
Proof.
  unfold send_any. rewrite bind_get_world.
  destruct (socket_is_open w) eqn:H; [|reflexivity].
  apply socket_is_open_true in H as (sid & Hs & Hr). rewrite Hs.
  destruct data as [v|e]; [|reflexivity].
  cbn [JSON_stringify lift]. rewrite bind_ret.
  unfold WebSocket_send. rewrite bind_get_world, Hr. reflexivity.
Qed.

Lemma send_any_slice_neutral (data : Data) : emits slice_neutral (send_any data).
Proof.
  intros w. rewrite send_any_eq.
  repeat case_match; cbn; repeat constructor.
Qed.

Lemma disconnectWebSocket_eq (w : World) :
  websocketSlice.disconnectWebSocket w
  = (Normal (), stop_keepalive (close_current w).1,
     (close_current w).2 ++ [StoreDispatch "websocket/disconnected" None]).
Proof.
  unfold websocketSlice.disconnectWebSocket.
  by rewrite (bind_normal _ _ _ _ _ _ (disconnect_eq w)).
Qed.

Lemma close_current_slice_neutral (w : World) : Forall slice_neutral (close_current w).2.
Proof.
  unfold close_current. repeat case_match; cbn; repeat constructor.
Qed.

Lemma app_step_loop (ev : Event) (st : websocketSlice.Store) :
  websocketSlice.app_step (websocketSlice.Loop ev) st
  = ({| websocketSlice.world := (step ev (websocketSlice.world st)).1;
        websocketSlice.websocket := websocketSlice.websocket st |},
     (step ev (websocketSlice.world st)).2).
Proof.
  unfold websocketSlice.app_step, step. cbn [websocketSlice.app_task].
  pose proof (task_slice_neutral ev (websocketSlice.world st)) as H.
  destruct (task ev (websocketSlice.world st)) as [[[a|e] w1] out] eqn:E;
    cbn in H; by rewrite (foldl_slice_neutral _ _ H).
Qed.

(** X12.  The thunk [connectWebSocket] on a client that is not open.
    When the constructor accepts the URL, the store is marked connected
    at once and its error cleared, and nothing else is dispatched, while
    the socket just constructed is still CONNECTING: the flag is raised
    before any transport has opened.  When the constructor rejects the
    URL, the [catch] itself raises a [TypeError] that nothing catches:
    nothing is dispatched and the slice is what it was, no socket is
    constructed, and [userId] has been assigned all the same. *)
Theorem connectWebSocket_raises_flag_before_open (st : websocketSlice.Store)
    (u : string) (accepted : bool) :
  socket_is_open (websocketSlice.world st) = false →
  let r := websocketSlice.app_step (websocketSlice.Thunk_connectWebSocket u accepted) st in
  if accepted
  then r.2 = [StoreDispatch "websocket/connected" None]
       ∧ websocketSlice.websocket r.1
         = {| websocketSlice.connected := true;
              websocketSlice.error := Some JNull;
              websocketSlice.lastMessage
                := websocketSlice.lastMessage (websocketSlice.websocket st) |}
       ∧ socket_is_open (websocketSlice.world r.1) = false
       ∧ readyState <$> sockets (websocketSlice.world r.1)
                        !! length (sockets (websocketSlice.world st))
         = Some CONNECTING
  else r.2 = [UncaughtException TypeError]
       ∧ websocketSlice.websocket r.1 = websocketSlice.websocket st
       ∧ sockets (websocketSlice.world r.1) = sockets (websocketSlice.world st)
       ∧ socket (this (websocketSlice.world r.1))
         = socket (this (websocketSlice.world st))
       ∧ userId (this (websocketSlice.world r.1)) = Some u.
Proof.
  intros Hopen. cbn zeta. unfold websocketSlice.app_step.
  cbn [websocketSlice.app_task]. rewrite connectWebSocket_eq, Hopen.
  destruct accepted; cbn [fst snd websocketSlice.world websocketSlice.websocket].
  - split_and!; [done|done| |].
    + unfold socket_is_open. cbn. by rewrite lookup_snoc.
    + cbn. by rewrite lookup_snoc.
  - by destruct st as [w [c e l]].
Qed.

Lemma connectWebSocket_raises_flag_before_open_witness :
  (websocketSlice.connected
     (websocketSlice.websocket
        (websocketSlice.app_step (websocketSlice.Thunk_connectWebSocket "u" true)
           {| websocketSlice.world := init None "wss://host";
              websocketSlice.websocket := websocketSlice.initialState |}).1)
   = true
   ∧ socket_is_open
       (websocketSlice.world
          (websocketSlice.app_step (websocketSlice.Thunk_connectWebSocket "u" true)
             {| websocketSlice.world := init None "wss://host";
                websocketSlice.websocket := websocketSlice.initialState |}).1)
     = false)
  ∧ (websocketSlice.app_step (websocketSlice.Thunk_connectWebSocket "u#" false)
       {| websocketSlice.world := init None "wss://host";
          websocketSlice.websocket := websocketSlice.initialState |}).2
    = [UncaughtException TypeError].
Proof.
  pose proof (connectWebSocket_raises_flag_before_open
    {| websocketSlice.world := init None "wss://host";
       websocketSlice.websocket := websocketSlice.initialState |} "u" true eq_refl)
    as (_ & H1 & H2 & _).
  pose proof (connectWebSocket_raises_flag_before_open
    {| websocketSlice.world := init None "wss://host";
       websocketSlice.websocket := websocketSlice.initialState |} "u#" false eq_refl)
    as (H3 & _).
  split; [split; [by rewrite H1|exact H2]|exact H3].
Defined.

(** X13.  Nothing the client does reaches the slice: through any run
    of tasks of the event loop (transport events, timers, direct calls
    of the client) and through [sendWebSocketMessage], the slice is what
    it was, while the client moves as [run] says.  So once raised the
    [connected] flag outlives every failure, the terminal error
    included, which is dispatched under [app/websocketError] and not
    under [websocket/error]. *)
Theorem client_never_reaches_slice (evs : list Event) (st : websocketSlice.Store) :
  (websocketSlice.app_run (websocketSlice.Loop <$> evs) st)
  = ({| websocketSlice.world := (run evs (websocketSlice.world st)).1;
        websocketSlice.websocket := websocketSlice.websocket st |},
     (run evs (websocketSlice.world st)).2)
  ∧ ∀ m, websocketSlice.websocket
           (websocketSlice.app_step (websocketSlice.Thunk_sendWebSocketMessage m) st).1
         = websocketSlice.websocket st.
Proof.
  split.
  - revert st. induction evs as [|ev evs IH]; intros st.
    + by destruct st.
    + cbn. rewrite app_step_loop, IH. cbn.
      destruct (step ev (websocketSlice.world st)) as [w1 out1]. cbn.
      by destruct (run evs w1).
  - intros m. unfold websocketSlice.app_step.
    cbn [websocketSlice.app_task]. unfold websocketSlice.sendWebSocketMessage.
    pose proof (send_any_slice_neutral m (websocketSlice.world st)) as H.
    destruct (send_any m (websocketSlice.world st)) as [[r w1] out].
    cbn in *. by apply foldl_slice_neutral.
Qed.

(** The flag after the thunk and six failed attempts in a row: the
    client has given up and said so, the store still says connected. *)
Example flag_outlives_terminal_error :
  let st := (websocketSlice.app_run
               (websocketSlice.Thunk_connectWebSocket "u" true
                :: (websocketSlice.Loop <$>
                      [WsClose 0 1006 ""; TimerFire 1; WsClose 1 1006 ""; TimerFire 2;
                       WsClose 2 1006 ""; TimerFire 3; WsClose 3 1006 ""; TimerFire 4;
                       WsClose 4 1006 ""; TimerFire 5; WsClose 5 1006 ""]))
               {| websocketSlice.world := init None "wss://host";
                  websocketSlice.websocket := websocketSlice.initialState |}) in
  websocketSlice.websocket st.1
  = {| websocketSlice.connected := true; websocketSlice.error := Some JNull;
       websocketSlice.lastMessage := Some JNull |}
  ∧ websocketError ∈ st.2 ∧ ¬ reconnect_pending (websocketSlice.world st.1).
Proof.
  cbn zeta. split_and!.
  - vm_compute. reflexivity.
  - vm_compute. set_solver.
  - intros (tid & t & Ht & _). revert Ht.
    assert (timers (websocketSlice.world (websocketSlice.app_run
               (websocketSlice.Thunk_connectWebSocket "u" true
                :: (websocketSlice.Loop <$>
                      [WsClose 0 1006 ""; TimerFire 1; WsClose 1 1006 ""; TimerFire 2;
                       WsClose 2 1006 ""; TimerFire 3; WsClose 3 1006 ""; TimerFire 4;
                       WsClose 4 1006 ""; TimerFire 5; WsClose 5 1006 ""]))
               {| websocketSlice.world := init None "wss://host";
                  websocketSlice.websocket := websocketSlice.initialState |}).1) = ∅)
      as -> by (vm_compute; reflexivity).
    by rewrite lookup_empty.
Qed.

Lemma disconnectWebSocket_slice (st : websocketSlice.Store) :
  websocketSlice.websocket
    (websocketSlice.app_step websocketSlice.Thunk_disconnectWebSocket st).1
  = {| websocketSlice.connected := false;
       websocketSlice.error := websocketSlice.error (websocketSlice.websocket st);
       websocketSlice.lastMessage
         := websocketSlice.lastMessage (websocketSlice.websocket st) |}.
Proof.
  unfold websocketSlice.app_step.
  cbn [websocketSlice.app_task]. rewrite disconnectWebSocket_eq.
  cbn [fst snd websocketSlice.world websocketSlice.websocket].
  rewrite foldl_app, (foldl_slice_neutral _ _ (close_current_slice_neutral _)).
  reflexivity.
Qed.

(** X14.  The thunk [disconnectWebSocket] lowers the flag and keeps the
    error and the last message; the client has then no socket and no
    keepalive interval, and the only action dispatched is
    [websocket/disconnected]. *)
Theorem disconnectWebSocket_lowers_flag (st : websocketSlice.Store) :
  let r := websocketSlice.app_step websocketSlice.Thunk_disconnectWebSocket st in
  websocketSlice.websocket r.1
  = {| websocketSlice.connected := false;
       websocketSlice.error := websocketSlice.error (websocketSlice.websocket st);
       websocketSlice.lastMessage
         := websocketSlice.lastMessage (websocketSlice.websocket st) |}
  ∧ websocketSlice.world r.1 = (step CallDisconnect (websocketSlice.world st)).1
  ∧ socket (this (websocketSlice.world r.1)) = None
  ∧ pingInterval (this (websocketSlice.world r.1)) = None
  ∧ filter is_dispatch r.2 = [StoreDispatch "websocket/disconnected" None].
Proof.
  cbn zeta. split; [apply disconnectWebSocket_slice|].
  unfold websocketSlice.app_step.
  cbn [websocketSlice.app_task]. rewrite disconnectWebSocket_eq.
  cbn [fst snd websocketSlice.world websocketSlice.websocket].
  destruct (disconnect_leaves (websocketSlice.world st)) as (Hs & Hp & _).
  cbn zeta in Hs, Hp. rewrite step_disconnect in Hs, Hp |- *. cbn [fst] in *.
  split_and!; try done.
  rewrite filter_app. unfold close_current. repeat case_match; reflexivity.
Qed.

(** X15.  The slice never learns of an error or of a message: whatever
    the application does (a thunk or any task of the client), the last
    message is what it was, and the error is what it was or is reset to
    [null] by [connectWebSocket]; no action [websocket/error] or
    [websocket/messageReceived] is ever dispatched. *)
Theorem slice_never_learns_error_or_message (e : websocketSlice.AppEvent)
    (st : websocketSlice.Store) :
  let r := websocketSlice.app_step e st in
  websocketSlice.lastMessage (websocketSlice.websocket r.1)
  = websocketSlice.lastMessage (websocketSlice.websocket st)
  ∧ (websocketSlice.error (websocketSlice.websocket r.1)
     = websocketSlice.error (websocketSlice.websocket st)
     ∨ (websocketSlice.error (websocketSlice.websocket r.1) = Some JNull
        ∧ ∃ u accepted, e = websocketSlice.Thunk_connectWebSocket u accepted))
  ∧ ∀ p, (StoreDispatch "websocket/error" p ∉ r.2)
         ∧ (StoreDispatch "websocket/messageReceived" p ∉ r.2).
Proof.
  cbn zeta.
  assert (∀ out p, Forall slice_neutral out →
            (StoreDispatch "websocket/error" p ∉ out)
            ∧ (StoreDispatch "websocket/messageReceived" p ∉ out)) as Hnot.
  { intros out p Hout. rewrite Forall_forall in Hout.
    split; intros Hin; specialize (Hout _ Hin).
    - specialize (Hout {| websocketSlice.connected := true;
                          websocketSlice.error := None;
                          websocketSlice.lastMessage := None |}).
      discriminate.
    - pose proof (Hout {| websocketSlice.connected := true;
                          websocketSlice.error := None;
                          websocketSlice.lastMessage := None |}) as H1.
      pose proof (Hout {| websocketSlice.connected := true;
                          websocketSlice.error := None;
                          websocketSlice.lastMessage := Some JNull |}) as H2.
      cbn in H1, H2. congruence. }
  destruct e as [u accepted| |m|ev].
  - unfold websocketSlice.app_step. cbn [websocketSlice.app_task].
    rewrite connectWebSocket_eq.
    destruct (socket_is_open (websocketSlice.world st)); [|destruct accepted]; cbn.
    1,2: split_and!; [done|eauto|];
         intros p; rewrite !list_elem_of_singleton; split; discriminate.
    split_and!; [done|by left|].
    intros p. rewrite !list_elem_of_singleton. split; discriminate.
  - rewrite disconnectWebSocket_slice.
    split_and!; [done|by left|].
    intros p. unfold websocketSlice.app_step. cbn [websocketSlice.app_task].
    rewrite disconnectWebSocket_eq. cbn [fst snd].
    rewrite !elem_of_app, !list_elem_of_singleton.
    destruct (Hnot _ p (close_current_slice_neutral (websocketSlice.world st))).
    split; intros [?|?]; done.
  - unfold websocketSlice.app_step. cbn [websocketSlice.app_task].
    unfold websocketSlice.sendWebSocketMessage.
    pose proof (send_any_slice_neutral m (websocketSlice.world st)) as H.
    destruct (send_any m (websocketSlice.world st)) as [[[a|x] w1] out]; cbn in *.
    + split_and!; [by rewrite foldl_slice_neutral|left; by rewrite foldl_slice_neutral|].
      intros p. by apply Hnot.
    + split_and!; [by rewrite foldl_slice_neutral|left; by rewrite foldl_slice_neutral|].
      intros p. apply Hnot. apply Forall_app. split; [done|]. repeat constructor.
  - rewrite app_step_loop. cbn. split_and!; [done|by left|]. intros p. apply Hnot.
    pose proof (task_slice_neutral ev (websocketSlice.world st)) as H.
    unfold step.
    destruct (task ev (websocketSlice.world st)) as [[[a|x] w1] out]; cbn in *; [done|].
    apply Forall_app. split; [done|]. repeat constructor.
Qed.

(** ** [connect] and [send] at the edges *)

(** X16.  [connect(userId)] on a client whose current socket is absent
    or not open never closes the socket it replaces: nothing is written,
    every socket that existed is left exactly as it was (a connecting one
    included, so a second [connect] before the first transport opens
    leaves two live transports bound to the client), and [userId] is
    assigned.  When the constructor accepts the URL, exactly one new
    socket is constructed, CONNECTING, at [REACT_APP_WS_URL/ws/userId],
    and becomes current; when it rejects the URL, [connect] raises its
    [SyntaxError] with no socket constructed and [this.socket] as it
    was. *)
Theorem connect_supersedes_without_closing (w : World) (u : string) (accepted : bool) :
  socket_is_open w = false →
  let r := connect_checked accepted (Some u) w in
  r.2 = []
  ∧ userId (this r.1.2) = Some u
  ∧ (∀ sid ws, sockets w !! sid = Some ws → sockets r.1.2 !! sid = Some ws)
  ∧ if accepted
    then r.1.1 = Normal ()
         ∧ length (sockets r.1.2) = S (length (sockets w))
         ∧ socket (this r.1.2) = Some (length (sockets w))
         ∧ (url <$> sockets r.1.2 !! length (sockets w)
            = Some (REACT_APP_WS_URL w ++ "/ws/" ++ u)%string)
         ∧ readyState <$> sockets r.1.2 !! length (sockets w) = Some CONNECTING
    else r.1.1 = Thrown SyntaxError
         ∧ sockets r.1.2 = sockets w
         ∧ socket (this r.1.2) = socket (this w).
Proof.
  intros Hopen. cbn zeta. destruct accepted.
  - change (connect_checked true (Some u)) with (connect (Some u)).
    rewrite (connect_not_open (Some u) w Hopen).
    cbn [fst snd connected sockets this socket userId].
    split_and!; try done.
    + intros sid ws Hws. by apply lookup_app_l_Some.
    + rewrite length_app. cbn. lia.
    + by rewrite lookup_snoc.
    + by rewrite lookup_snoc.
  - rewrite (connect_checked_rejected (Some u) w Hopen). done.
Qed.

Lemma connect_supersedes_without_closing_witness :
  (readyState
     <$> sockets (connect_checked true (Some "u")
                    (step (CallConnect "u") (init None "wss://host")).1).1.2 !! 0%nat
   = Some CONNECTING
   ∧ readyState
       <$> sockets (connect_checked true (Some "u")
                      (step (CallConnect "u") (init None "wss://host")).1).1.2 !! 1%nat
     = Some CONNECTING)
  ∧ (connect_checked false (Some "u#") (init None "wss://host")).1.1
    = Thrown SyntaxError.
Proof.
  pose proof (connect_supersedes_without_closing
    (step (CallConnect "u") (init None "wss://host")).1 "u" true eq_refl)
    as (_ & _ & H1 & _ & _ & _ & _ & H2).
  pose proof (connect_supersedes_without_closing
    (init None "wss://host") "u#" false eq_refl) as (_ & _ & _ & H3 & _).
  split; [split; [|exact H2]|exact H3].
  rewrite (H1 0%nat {| url := "wss://host/ws/u"; readyState := CONNECTING;
                       onopen := Some BoundHandleOpen |} eq_refl).
  reflexivity.
Defined.

(** X17.  [send(data)] raises only what [JSON.stringify] raises, and
    only when the current socket is open.  The guard on the ready state
    keeps it from writing to a socket that is still connecting, so the
    transport never raises; while the socket is not open the data is not
    even serialised and the call only reports on the console, whatever
    the data.  On an open socket a JSON value is written once, and data
    the serialiser raises on leaves [send] with that exception and
    nothing written.  The client is never changed. *)
Theorem send_raises_only_from_stringify (w : World) (data : Data) :
  (∃ sid, socket (this w) = Some sid
          ∧ readyState <$> sockets w !! sid = Some OPEN
          ∧ send_any data w
            = match data with
              | Json v => (Normal (), w, [TransportSend sid v])
              | Unserializable e => (Thrown e, w, [])
              end)
  ∨ (socket_is_open w = false
     ∧ send_any data w
       = (Normal (), w, [ConsoleError [LStr "WebSocket is not connected"]])).
Proof.
  rewrite send_any_eq. destruct (socket_is_open w) eqn:H.
  - left. apply socket_is_open_true in H as (sid & Hs & Hr).
    exists sid. rewrite Hs. split_and!; [done..|]. by destruct data.
  - by right.
Qed.

(** X18.  The function that sends the token writes to whatever socket
    is current when it runs, not to the socket that opened.  When a
    superseded socket opens, nothing is written to it: the handshake goes
    to the current socket if that one is open, is lost in an uncaught
    [InvalidStateError] if it is still connecting, and is dropped if it
    is closing or closed. *)
Theorem handshake_goes_to_current_socket (w : World) (sid cur : nat)
    (ws wc : WebSocket) (tok : string) :
  sockets w !! sid = Some ws → readyState ws = CONNECTING →
  onopen ws = Some (SendAuthorization tok) →
  socket (this w) = Some cur → cur ≠ sid → sockets w !! cur = Some wc →
  (step (WsOpen sid) w).2
  = match readyState wc with
    | CONNECTING => [UncaughtException InvalidStateError]
    | OPEN => [TransportSend cur (authorization_frame tok)]
    | CLOSING | CLOSED => []
    end.
Proof.
  intros Hws Hst Hh Hcur Hne Hwc. unfold step, task.
  rewrite bind_get_world, Hws, Hst. cbn [ReadyState_eqb].
  rewrite (bind_normal _ _ _ _ _ _ (set_readyState_Some sid OPEN w ws Hws)).
  rewrite Hh. unfold send_authorization. rewrite bind_get_this.
  cbn [fst snd with_sockets this]. rewrite Hcur.
  unfold WebSocket_send. rewrite bind_get_world. cbn [sockets with_sockets].
  rewrite list_lookup_insert_ne by done. rewrite Hwc. cbn.
  by destruct (readyState wc).
Qed.

Lemma handshake_goes_to_current_socket_witness :
  (step (WsOpen 0)
     (run [CallConnect "u"; CallConnect "u"; WsOpen 1]
        (init (Some "secret") "wss://host")).1).2
  = [TransportSend 1 (authorization_frame "secret")].
Proof.
  refine (handshake_goes_to_current_socket
    (run [CallConnect "u"; CallConnect "u"; WsOpen 1]
       (init (Some "secret") "wss://host")).1 0%nat 1%nat
    {| url := "wss://host/ws/u"; readyState := CONNECTING;
       onopen := Some (SendAuthorization "secret") |}
    {| url := "wss://host/ws/u"; readyState := OPEN;
       onopen := Some (SendAuthorization "secret") |}
    "secret" _ _ _ _ _ _).
  - vm_compute; reflexivity.
  - reflexivity.
  - reflexivity.
  - vm_compute; reflexivity.
  - discriminate.
  - vm_compute; reflexivity.
Defined.
